(** * CostoMenu executive BI: the dashboard computations and the
      reconciliation engine they report on

    The first half embeds the TypeScript components of [costomenu-bi]
    ([RevenueView], [WinBackView], [ParetoChart]) together with the few
    JavaScript primitives they call, and models the stages of the
    reconciliation engine from its specification; the second half states
    and proves the properties.

    Conventions of the embedding.
    - A JavaScript [number] that holds money is a rational ([Q]); sums are
      taken in the order the code takes them.  A [number] produced by
      [parseInt] or held by a [Date] is [option Z], [None] being [NaN]; the
      integers are exact (IEEE rounding only touches digit strings beyond
      2^53, which [MakeDay] and [TimeClip] turn into [NaN] either way).
    - A JavaScript string is a [string] whose characters stand for the code
      units 0..255.
    - Arrays of users live in a store of arrays addressed by references, so
      that [sort] (in place) and [filter], [slice] and spread (fresh array)
      keep their aliasing behaviour. *)

From Stdlib Require Import ZArith QArith List String Ascii Bool Lia.
From Stdlib Require Import Permutation Sorted Lqa.
From stdpp Require Import gmap.
Import ListNotations.

Open Scope string_scope.
Open Scope Z_scope.

(** ** JavaScript primitives *)

Module JS.

(** [number] as produced by [parseInt] and consumed by [Date]. *)
Definition number := option Z.

Definition NaN : number := None.

(** [a - k] on numbers: [NaN] is absorbing. *)
Definition minus (a : number) (k : Z) : number :=
  match a with
  | Some x => Some (x - k)
  | None => None
  end.

(** [a < b] on numbers: false as soon as one side is [NaN]. *)
Definition lt (a b : number) : bool :=
  match a, b with
  | Some x, Some y => x <? y
  | _, _ => false
  end.

(** *** Strings *)

Definition code (c : ascii) : Z := Z.of_N (N_of_ascii c).

(** [String.prototype.split] with a one-character separator. *)
Fixpoint split (sep : ascii) (s : string) : list string :=
  match s with
  | EmptyString => [EmptyString]
  | String c rest =>
      if Ascii.eqb c sep then EmptyString :: split sep rest
      else match split sep rest with
           | p :: ps => String c p :: ps
           | [] => [String c EmptyString]
           end
  end.

(** Simple case mapping on the code units 0..255: A-Z and the Latin-1
    capitals (all of 192..222 but the multiplication sign). *)
Definition lowerChar (c : ascii) : ascii :=
  let n := code c in
  if ((65 <=? n) && (n <=? 90)) || ((192 <=? n) && (n <=? 222) && negb (n =? 215))
  then ascii_of_N (Z.to_N (n + 32))
  else c.

Fixpoint toLowerCase (s : string) : string :=
  match s with
  | EmptyString => EmptyString
  | String c rest => String (lowerChar c) (toLowerCase rest)
  end.

(** White space (tab, LF, VT, FF, CR, space, NBSP). *)
Definition isWhiteSpace (c : ascii) : bool :=
  let n := code c in
  ((9 <=? n) && (n <=? 13)) || (n =? 32) || (n =? 160).

Fixpoint trimStart (s : string) : string :=
  match s with
  | String c rest => if isWhiteSpace c then trimStart rest else s
  | EmptyString => EmptyString
  end.

Fixpoint trimEnd (s : string) : string :=
  match s with
  | EmptyString => EmptyString
  | String c rest =>
      let rest' := trimEnd rest in
      if isWhiteSpace c && (rest' =? "")%string then EmptyString
      else String c rest'
  end.

(** [String.prototype.trim] *)
Definition trim (s : string) : string := trimEnd (trimStart s).

(** Value of a character as a digit (0-9, a-z, A-Z). *)
Definition digitValue (c : ascii) : option Z :=
  let n := code c in
  if (48 <=? n) && (n <=? 57) then Some (n - 48)
  else if (97 <=? n) && (n <=? 122) then Some (n - 87)
  else if (65 <=? n) && (n <=? 90) then Some (n - 55)
  else None.

(** The longest prefix of radix-[R] digits, read as an integer; the
    accumulator is [None] until a first digit has been seen. *)
Fixpoint readDigits (R : Z) (s : string) (acc : option Z) : option Z :=
  match s with
  | EmptyString => acc
  | String c rest =>
      match digitValue c with
      | Some d =>
          if d <? R
          then readDigits R rest (Some (match acc with Some a => a | None => 0 end * R + d))
          else acc
      | None => acc
      end
  end.

(** [parseInt(s)] with no radix argument: leading white space, a sign, a
    [0x]/[0X] prefix switching to radix 16, then as many digits as there
    are; [NaN] when there is none. *)
Definition parseInt (s : string) : number :=
  let S1 := trimStart s in
  let '(sign, S2) :=
    match S1 with
    | String "-" rest => (-1, rest)
    | String "+" rest => (1, rest)
    | _ => (1, S1)
    end in
  let '(R, S3) :=
    match S2 with
    | String "0" (String "x" rest) => (16, rest)
    | String "0" (String "X" rest) => (16, rest)
    | _ => (10, S2)
    end in
  match readDigits R S3 None with
  | Some n => Some (sign * n)
  | None => NaN
  end.

(** *** Dates (ECMAScript time values: milliseconds since 1970-01-01) *)

Definition msPerDay : Z := 86400000.

Definition DayFromYear (y : Z) : Z :=
  365 * (y - 1970) + (y - 1969) / 4 - (y - 1901) / 100 + (y - 1601) / 400.

Definition InLeapYear (y : Z) : bool :=
  ((y mod 4 =? 0) && negb (y mod 100 =? 0)) || (y mod 400 =? 0).

(** Days of the year before month [mn] (0 = January). *)
Definition DaysBeforeMonth (leap : bool) (mn : Z) : Z :=
  let l := if leap then 1 else 0 in
  match mn with
  | 0 => 0
  | 1 => 31
  | 2 => 59 + l
  | 3 => 90 + l
  | 4 => 120 + l
  | 5 => 151 + l
  | 6 => 181 + l
  | 7 => 212 + l
  | 8 => 243 + l
  | 9 => 273 + l
  | 10 => 304 + l
  | _ => 334 + l
  end.

(** [MakeDay]: months outside 0..11 carry into the year, days outside the
    month carry into the neighbouring months.  As in V8 (Node, Chrome), a
    year beyond a million or a month beyond ten millions, either way, makes
    the day [NaN]; the range of time values is enforced by [TimeClip]. *)
Definition MakeDay (year month date : number) : number :=
  match year, month, date with
  | Some y, Some m, Some dt =>
      if (Z.abs y <=? 1000000) && (Z.abs m <=? 10000000)
      then
        let ym := y + m / 12 in
        let mn := m mod 12 in
        Some (DayFromYear ym + DaysBeforeMonth (InLeapYear ym) mn + dt - 1)
      else NaN
  | _, _, _ => NaN
  end.

Definition MakeDate (day : number) (time : Z) : number :=
  match day with
  | Some d => Some (d * msPerDay + time)
  | None => NaN
  end.

Definition TimeClip (t : number) : number :=
  match t with
  | Some v => if Z.abs v <=? 8640000000000000 then Some v else NaN
  | None => NaN
  end.

Section LocalTime.

(** The host's conversion from local time to UTC. *)
Variable UTC : Z -> Z.

(** [new Date(year, monthIndex, day)]: the time value of local midnight;
    years 0..99 mean 1900..1999; an invalid date has time value [NaN]. *)
Definition Date3 (year month date : number) : number :=
  let yr :=
    match year with
    | Some y => if (0 <=? y) && (y <=? 99) then Some (1900 + y) else Some y
    | None => NaN
    end in
  match MakeDate (MakeDay yr month date) 0 with
  | Some t => TimeClip (Some (UTC t))
  | None => NaN
  end.

End LocalTime.

(** *** Arrays *)

Section Arrays.

Context {A : Type}.

(** [Array.prototype.sort(cmp)]: stable; [cmp a b > 0] puts [b] first. *)
Fixpoint insert (cmp : A -> A -> Q) (x : A) (l : list A) : list A :=
  match l with
  | [] => [x]
  | y :: l' =>
      if Qle_bool (cmp x y) 0 then x :: l else y :: insert cmp x l'
  end.

Fixpoint sort (cmp : A -> A -> Q) (l : list A) : list A :=
  match l with
  | [] => []
  | x :: l' => insert cmp x (sort cmp l')
  end.

(** [slice(0, n)]. *)
Definition slice0 (n : nat) (l : list A) : list A := firstn n l.

End Arrays.

(** [a > b] and [a < b] on the rationals that stand for money. *)
Definition Qgt_bool (a b : Q) : bool := negb (Qle_bool a b).

End JS.


(** ** The data set of [lib/data] *)

(** Modelled from the spec: the [User] type of [@/lib/data] is not among the
    sources.  The fields are those the components read, with the types
    their use imposes, and the two activity columns of the CRM export
    ([Last activity date], [Days Since Last Activity] in schema.md) that
    the health rules of the specification refer to. *)
Record User := {
  UserID : Z;
  Fullname : string;
  Company : string;
  LicenseType : string;
  Status : string;
  ExpirationDate : string;
  LastActivityDate : string;
  DaysSinceLastActivity : Z;
  RecipeCount : Z;
  DistributorCount : Z;
  TotalPayments : Q
}.

(** ** The store of arrays *)

Module Store.

Definition ref := nat.

(** Every array of users the components create or read, by reference. *)
Abbreviation store := (gmap nat (list User)).

(** A computation reads and updates the store; [None] is a reference that
    was never allocated. *)
Definition M (A : Type) : Type := store -> option (A * store).

Definition ret {A} (a : A) : M A := fun s => Some (a, s).

Definition bind {A B} (c : M A) (k : A -> M B) : M B :=
  fun s =>
    match c s with
    | Some (a, s') => k a s'
    | None => None
    end.

Notation "'let*' x ':=' c 'in' k" := (bind c (fun x => k))
  (at level 10, x name, c at level 200, k at level 200).

(** The module-level array [data]. *)
Definition data : ref := 0%nat.

Definition get (r : ref) : M (list User) :=
  fun s =>
    match s !! r with
    | Some xs => Some (xs, s)
    | None => None
    end.

Definition set (r : ref) (xs : list User) : M unit :=
  fun s =>
    match s !! r with
    | Some _ => Some (tt, <[r := xs]> s)
    | None => None
    end.

(** A fresh array. *)
Definition alloc (xs : list User) : M ref :=
  fun s => let r := fresh (dom s) in Some (r, <[r := xs]> s).

(** [[...a]] *)
Definition spread (a : ref) : M ref :=
  let* xs := get a in alloc xs.

(** [a.filter(p)] *)
Definition filter (a : ref) (p : User -> bool) : M ref :=
  let* xs := get a in alloc (List.filter p xs).

(** [a.slice(0, n)] *)
Definition slice (a : ref) (n : nat) : M ref :=
  let* xs := get a in alloc (JS.slice0 n xs).

(** [a.sort(cmp)] sorts [a] itself and returns it. *)
Definition sort (a : ref) (cmp : User -> User -> Q) : M ref :=
  let* xs := get a in let* _ := set a (JS.sort cmp xs) in ret a.

(** [a.push(x)] *)
Definition push (a : ref) (x : User) : M unit :=
  let* xs := get a in set a (xs ++ [x]).

(** [a.forEach(body)], the closure's local variables being threaded as
    [L]. *)
Fixpoint forEachFrom {L} (xs : list User) (body : User -> L -> M L) (l : L) : M L :=
  match xs with
  | [] => ret l
  | x :: xs' => let* l' := body x l in forEachFrom xs' body l'
  end.

Definition forEach {L} (a : ref) (body : User -> L -> M L) (l : L) : M L :=
  let* xs := get a in forEachFrom xs body l.

(** The store in which a page is first rendered: [data] alone. *)
Definition initial (d : list User) : store := {[ data := d ]}.

End Store.

Import Store.

(** ** The components *)

(** [(a, b) => b.TotalPayments - a.TotalPayments], the comparator of the
    three components: highest revenue first. *)
Definition byRevenueDesc (a b : User) : Q :=
  (TotalPayments b - TotalPayments a)%Q.

(** [us.reduce((sum, u) => sum + u.TotalPayments, 0)]: the payments of [us]
    added up in list order. *)
Definition sumPayments (us : list User) : Q :=
  fold_left (fun sum u => (sum + TotalPayments u)%Q) us 0%Q.

(** *** RevenueView.tsx *)

Module Revenue.

(** The closure's [let] variables, updated by the [forEach] callback. *)
Record Locals := {
  totalPayments : Q;
  userCount : Z;
  churnRevenue : Q
}.

(** The object the memo returns; the two arrays are references. *)
Record Memo := {
  totalARR : Q;
  arpu : Q;
  potentialChurn : Q;
  zombies : ref;
  topRevenueUsers : ref
}.

(** The memo with its arrays read out: the figures of the page. *)
Record Figures := {
  shownTotalARR : Q;
  shownArpu : Q;
  shownPotentialChurn : Q;
  shownZombies : list User;
  shownTopRevenueUsers : list User
}.

Section Host.

(** The host's time zone and the time value of [new Date()]; the calls of
    [isExpired] within one pass are taken to read the same instant. *)
Variable UTC : Z -> Z.
Variable today : Z.

Definition isExpired (dateStr : string) : bool :=
  if (dateStr =? "")%string then false
  else
    let parts := JS.split "/" dateStr in
    if negb (length parts =? 3)%nat then false
    else
      let exp :=
        JS.Date3 UTC
          (JS.parseInt (nth 2 parts ""))
          (JS.minus (JS.parseInt (nth 1 parts "")) 1)
          (JS.parseInt (nth 0 parts "")) in
      JS.lt exp (Some today).

(** The callback of [data.forEach]. *)
Definition callback (zombieUsers : ref) (user : User) (l : Locals) : M Locals :=
  let total := (totalPayments l + TotalPayments user)%Q in
  let count :=
    if JS.Qgt_bool (TotalPayments user) 0 then userCount l + 1 else userCount l in
  if (Status user =? "ACTIVE")%string && isExpired (ExpirationDate user)
  then
    let* _ := push zombieUsers user in
    ret {| totalPayments := total;
           userCount := count;
           churnRevenue := (churnRevenue l + TotalPayments user)%Q |}
  else
    ret {| totalPayments := total;
           userCount := count;
           churnRevenue := churnRevenue l |}.

Definition useMemo : M Memo :=
  let* zombieUsers := alloc [] in
  let* l := forEach data (callback zombieUsers)
              {| totalPayments := 0; userCount := 0; churnRevenue := 0 |} in
  let* copy := spread data in
  let* sorted := sort copy byRevenueDesc in
  let* top := slice sorted 10 in
  ret {| totalARR := totalPayments l;
         arpu := if 0 <? userCount l
                 then (totalPayments l / inject_Z (userCount l))%Q
                 else 0%Q;
         potentialChurn := churnRevenue l;
         zombies := zombieUsers;
         topRevenueUsers := top |}.

Definition RevenueView : M Figures :=
  let* m := useMemo in
  let* z := get (zombies m) in
  let* t := get (topRevenueUsers m) in
  ret {| shownTotalARR := totalARR m;
         shownArpu := arpu m;
         shownPotentialChurn := potentialChurn m;
         shownZombies := z;
         shownTopRevenueUsers := t |}.

End Host.

End Revenue.

(** *** WinBackView *)

Module WinBack.

(** A row of the candidates table. *)
Record Row := {
  user : User;
  isUpsellTarget : bool
}.

Definition isCandidate (u : User) : bool :=
  (JS.toLowerCase (LicenseType u) =? "beginner")%string
  && JS.Qgt_bool (TotalPayments u) 0.

(** [winBackUsers] *)
Definition useMemo : M ref :=
  let* users := filter data isCandidate in
  sort users byRevenueDesc.

Definition row (u : User) : Row :=
  {| user := u; isUpsellTarget := 20 <? RecipeCount u |}.

Definition WinBackView : M (list Row) :=
  let* winBackUsers := useMemo in
  let* us := get winBackUsers in
  ret (map row us).

End WinBack.

(** *** ParetoChart *)

Module Pareto.

Record Entry := {
  name : string;
  revenue : Q;
  cumulativePercentage : Q;
  full_name : string
}.

(** The [map] callback, which also advances the captured [cumulative]. *)
Fixpoint mapEntries (totalRevenue : Q) (us : list User) (cumulative : Q) : list Entry :=
  match us with
  | [] => []
  | u :: rest =>
      let cumulative' := (cumulative + TotalPayments u)%Q in
      {| name := nth 0 (JS.split " " (Fullname u)) "";
         revenue := TotalPayments u;
         cumulativePercentage := (cumulative' / totalRevenue * 100)%Q;
         full_name := Fullname u |}
      :: mapEntries totalRevenue rest cumulative'
  end.

(** [chartData] *)
Definition ParetoChart : M (list Entry) :=
  let* copy := spread data in
  let* byRevenue := sort copy byRevenueDesc in
  let* sorted := filter byRevenue (fun u => JS.Qgt_bool (TotalPayments u) 0) in
  let* us := get sorted in
  let totalRevenue := sumPayments us in
  let* first30 := slice sorted 30 in
  let* top := get first30 in
  ret (mapEntries totalRevenue top 0).

End Pareto.

(** *** The pages *)

(** What one pass over the pages shows: [/revenue] renders [RevenueView],
    which renders [ParetoChart]; [/win-back] renders [WinBackView]. *)
Record Report := {
  revenue : Revenue.Figures;
  pareto : list Pareto.Entry;
  winBack : list WinBack.Row
}.

Definition renderPages (UTC : Z -> Z) (today : Z) : M Report :=
  let* r := Revenue.RevenueView UTC today in
  let* p := Pareto.ParetoChart in
  let* w := WinBack.WinBackView in
  ret {| revenue := r; pareto := p; winBack := w |}.

(** ** The reconciliation and cohort engine *)

(** Modelled from the spec: the engine's stages (identity matcher, segment
    and health classifier, cohort aggregator) are Python scripts that are
    not among the sources; the definitions of this module follow sections
    3, 4.2, 4.3 and 4.4 of the specification. *)
Module Engine.

Inductive license_tier := Beginner | Professional | Expert | UnknownTier.
Inductive license_status := LicenseActive | LicenseExpired | LicenseUnknown.
Inductive health_state := Active | Dormant | AtRisk | Unknown.

(** The reason codes that go with [Unknown]. *)
Inductive diagnostic := DormantAbandoned | BlindSpot | CriticalBlank.

(** A calendar date with no time component; [month] is 1..12. *)
Record date := {
  year : Z;
  month : Z;
  day : Z
}.

(** Days since 1970-01-01, and months since year 0. *)
Definition dayNumber (d : date) : Z :=
  JS.DayFromYear (year d)
  + JS.DaysBeforeMonth (JS.InLeapYear (year d)) (month d - 1)
  + day d - 1.

Definition monthIndex (d : date) : Z := 12 * year d + (month d - 1).

Record usage_counts := {
  recipes : Z;
  ingredients : Z;
  menus : Z;
  distributors : Z
}.

Record UserRecord := {
  user_id : Z;
  full_name : string;
  email : option string;
  company : string;
  tier : license_tier;
  status : license_status;
  registration_date : option date;
  last_activity_date : option date;
  expiration_date : option date;
  usage : usage_counts;
  total_payments : Q
}.

Inductive tx_status := Paid | Failed | Pending.

Record TransactionRecord := {
  tx_date : option date;
  payer_email : string;
  payer_name_free_text : string;
  amount : Q;
  tx_state : tx_status;
  matched_user_id : option Z
}.

(** *** 4.3 Segment and health classifier *)

Record thresholds := {
  dormancy : Z;
  long_dormancy : Z
}.

Definition known (t : license_tier) : bool :=
  match t with
  | UnknownTier => false
  | _ => true
  end.

Definition absent {A} (o : option A) : bool :=
  match o with
  | None => true
  | Some _ => false
  end.

Definition is_active (s : license_status) : bool :=
  match s with
  | LicenseActive => true
  | _ => false
  end.

Definition is_expired (s : license_status) : bool :=
  match s with
  | LicenseExpired => true
  | _ => false
  end.

Section Classifier.

Variable cfg : thresholds.
Variable today : date.

(** Days since the last activity exceed [limit]; never so when there is
    no last activity. *)
Definition stale (limit : Z) (u : UserRecord) : bool :=
  match last_activity_date u with
  | Some d => limit <? dayNumber today - dayNumber d
  | None => false
  end.

Definition lapsed (u : UserRecord) : bool :=
  match expiration_date u with
  | Some e => dayNumber e <? dayNumber today
  | None => false
  end.

(** The five rules, in priority order. *)
Inductive rule := Rule1 | Rule2 | Rule3 | Rule4 | Rule5.

Definition guard (r : rule) (u : UserRecord) : bool :=
  match r with
  | Rule1 => absent (last_activity_date u) && known (tier u)
  | Rule2 => is_active (status u) && stale (dormancy cfg) u
  | Rule3 => is_active (status u) && lapsed u
  | Rule4 => is_expired (status u) || stale (long_dormancy cfg) u
  | Rule5 => true
  end.

Definition outcome (r : rule) : health_state :=
  match r with
  | Rule1 => Unknown
  | Rule2 => AtRisk
  | Rule3 => AtRisk
  | Rule4 => Dormant
  | Rule5 => Active
  end.

(** The first rule whose guard holds. *)
Definition firing (u : UserRecord) : rule :=
  if guard Rule1 u then Rule1
  else if guard Rule2 u then Rule2
  else if guard Rule3 u then Rule3
  else if guard Rule4 u then Rule4
  else Rule5.

Definition health (u : UserRecord) : health_state := outcome (firing u).

(** The lookup table of reason codes, keyed by segment. *)
Definition reason (t : license_tier) : option diagnostic :=
  match t with
  | Beginner => Some DormantAbandoned
  | Professional => Some BlindSpot
  | Expert => Some CriticalBlank
  | UnknownTier => None
  end.

Definition diagnosis (u : UserRecord) : option diagnostic :=
  match health u with
  | Unknown => reason (tier u)
  | _ => None
  end.

(** The rules before [r] in the priority order. *)
Definition earlier (r : rule) : list rule :=
  match r with
  | Rule1 => []
  | Rule2 => [Rule1]
  | Rule3 => [Rule1; Rule2]
  | Rule4 => [Rule1; Rule2; Rule3]
  | Rule5 => [Rule1; Rule2; Rule3; Rule4]
  end.

(** [u] receives [h]: some rule holds for [u], none before it does, and
    its outcome is [h]. *)
Definition receives (u : UserRecord) (h : health_state) : Prop :=
  exists r, guard r u = true
            /\ (forall r', In r' (earlier r) -> guard r' u = false)
            /\ outcome r = h.

End Classifier.

(** *** 4.2 Identity matcher *)

Inductive confidence := Certain | High | Medium.

Inductive MatchOutcome :=
  | Matched (uid : Z) (c : confidence)
  | Ambiguous (c : confidence) (candidates : list Z)
  | Unmatched.

(** Case and white space normalisation; an address with nothing left
    cannot be normalised. *)
Definition normalize_email (s : string) : option string :=
  let t := JS.toLowerCase (JS.trim s) in
  if (t =? "")%string then None else Some t.

Definition same_tokens (a b : list string) : bool :=
  forallb (fun x => existsb (String.eqb x) b) a
  && forallb (fun y => existsb (String.eqb y) a) b.

(** Recency of the last activity; no activity is older than any. *)
Definition at_least_as_recent (u v : UserRecord) : bool :=
  match last_activity_date u, last_activity_date v with
  | _, None => true
  | None, Some _ => false
  | Some a, Some b => dayNumber b <=? dayNumber a
  end.

Section Matcher.

(** The canonical token set of a name (honorifics and diacritics
    stripped), [None] when the name cannot be normalised; and the
    partial-name test with its fixed threshold. *)
Variable name_tokens : string -> option (list string).
Variable partial_name : TransactionRecord -> UserRecord -> bool.

Definition email_match (tx : TransactionRecord) (u : UserRecord) : bool :=
  match normalize_email (payer_email tx), email u with
  | Some a, Some e =>
      match normalize_email e with
      | Some b => (a =? b)%string
      | None => false
      end
  | _, _ => false
  end.

Definition name_match (tx : TransactionRecord) (u : UserRecord) : bool :=
  match name_tokens (payer_name_free_text tx), name_tokens (full_name u) with
  | Some a, Some b => same_tokens a b
  | _, _ => false
  end.

(** One pass: nothing when there is no candidate; otherwise the
    candidate with the most recent activity, or an ambiguity when that
    is still a tie. *)
Definition resolve (c : confidence) (cands : list UserRecord) : option MatchOutcome :=
  match cands with
  | [] => None
  | _ =>
      match List.filter (fun u => forallb (at_least_as_recent u) cands) cands with
      | [w] => Some (Matched (user_id w) c)
      | _ => Some (Ambiguous c (map user_id cands))
      end
  end.

(** The ordered passes; the first pass with a candidate decides. *)
Definition match_outcome (users : list UserRecord) (tx : TransactionRecord) : MatchOutcome :=
  match resolve Certain (List.filter (email_match tx) users) with
  | Some o => o
  | None =>
      match resolve High (List.filter (name_match tx) users) with
      | Some o => o
      | None =>
          match resolve Medium (List.filter (partial_name tx) users) with
          | Some o => o
          | None => Unmatched
          end
      end
  end.

Definition matched_id (o : MatchOutcome) : option Z :=
  match o with
  | Matched uid _ => Some uid
  | _ => None
  end.

(** The transaction as the matcher hands it on. *)
Definition reconcile (users : list UserRecord) (tx : TransactionRecord) : TransactionRecord :=
  {| tx_date := tx_date tx;
     payer_email := payer_email tx;
     payer_name_free_text := payer_name_free_text tx;
     amount := amount tx;
     tx_state := tx_state tx;
     matched_user_id := matched_id (match_outcome users tx) |}.

(** What one reconciled transaction adds to the total of user [uid]. *)
Definition share (uid : Z) (tx : TransactionRecord) : Q :=
  match matched_user_id tx with
  | Some m => if m =? uid then amount tx else 0%Q
  | None => 0%Q
  end.

Definition gross_revenue (txs : list TransactionRecord) : Q :=
  fold_left (fun sum tx => (sum + amount tx)%Q) txs 0%Q.

Definition per_user_total (users : list UserRecord) (txs : list TransactionRecord) (uid : Z) : Q :=
  fold_left (fun sum tx => (sum + share uid (reconcile users tx))%Q) txs 0%Q.

End Matcher.

(** *** 4.4 Cohort and retention aggregator *)

Definition registered_in (m : Z) (u : UserRecord) : bool :=
  match registration_date u with
  | Some d => monthIndex d =? m
  | None => false
  end.

(** The cohort of a period: the users registered in that month. *)
Definition cohort (users : list UserRecord) (period : Z) : list UserRecord :=
  List.filter (registered_in period) users.

(** The first day of a month given by its index. *)
Definition month_start (m : Z) : date :=
  {| year := m / 12; month := m mod 12 + 1; day := 1 |}.

(** The strict definition against a reference month: the last activity is
    no more than 30 days before the month begins (or is later). *)
Definition strict_at (m : Z) (u : UserRecord) : bool :=
  match last_activity_date u with
  | Some d => dayNumber (month_start m) - dayNumber d <=? 30
  | None => false
  end.

(** Active at offset [k]: by construction in the month of registration,
    and by the strict definition against month [period + k]. *)
Definition active_at (period k : Z) (u : UserRecord) : bool :=
  registered_in (period + k) u || strict_at (period + k) u.

Definition retention (users : list UserRecord) (period k : Z) : Q :=
  let members := cohort users period in
  (inject_Z (Z.of_nat (length (List.filter (active_at period k) members)))
   / inject_Z (Z.of_nat (length members)))%Q.

End Engine.

(** ** Closed forms *)

(** What each component shows, as a function of the contents of [data]:
    the value-level reading of the programs above, against which they are
    proved. *)
Module Closed.

Definition paying (u : User) : bool := JS.Qgt_bool (TotalPayments u) 0.

Section Host.

Variable UTC : Z -> Z.
Variable today : Z.

Definition isZombie (u : User) : bool :=
  (Status u =? "ACTIVE")%string && Revenue.isExpired UTC today (ExpirationDate u).

Definition figures (d : list User) : Revenue.Figures :=
  let n := Z.of_nat (length (List.filter paying d)) in
  {| Revenue.shownTotalARR := sumPayments d;
     Revenue.shownArpu :=
       if 0 <? n then (sumPayments d / inject_Z n)%Q else 0%Q;
     Revenue.shownPotentialChurn := sumPayments (List.filter isZombie d);
     Revenue.shownZombies := List.filter isZombie d;
     Revenue.shownTopRevenueUsers := firstn 10 (JS.sort byRevenueDesc d) |}.

End Host.

Definition rows (d : list User) : list WinBack.Row :=
  map WinBack.row (JS.sort byRevenueDesc (List.filter WinBack.isCandidate d)).

Definition entries (d : list User) : list Pareto.Entry :=
  let sorted := List.filter paying (JS.sort byRevenueDesc d) in
  Pareto.mapEntries (sumPayments sorted) (firstn 30 sorted) 0.

Definition report (UTC : Z -> Z) (today : Z) (d : list User) : Report :=
  {| revenue := figures UTC today d;
     pareto := entries d;
     winBack := rows d |}.

End Closed.

(** ** The specification's wording *)

(** Modelled from the spec: the health rules that section 4.3 places before
    the expiry rule, read on a CRM row (missing-value sentinels as in
    section 4.1, dormancy threshold at its default of 30 days), and the
    plain reading of a numeric date part.  They are only used to compare
    the wording of the specification with the components. *)
Module Wording.

Definition absentValue (s : string) : bool :=
  ((s =? "") || (s =? "N/A") || (s =? "Unknown"))%string.

Definition knownTier (s : string) : bool :=
  let t := JS.toLowerCase s in
  ((t =? "beginner") || (t =? "professional") || (t =? "expert"))%string.

(** Rule 1: no last activity, known tier. *)
Definition rule1 (u : User) : bool :=
  absentValue (LastActivityDate u) && knownTier (LicenseType u).

(** Rule 2: active licence, last activity older than the threshold. *)
Definition rule2 (u : User) : bool :=
  (Status u =? "ACTIVE")%string && (30 <? DaysSinceLastActivity u).

(** Rule 3 in its place in the priority order. *)
Definition rule3 (UTC : Z -> Z) (today : Z) (u : User) : bool :=
  negb (rule1 u) && negb (rule2 u) && Closed.isZombie UTC today u.

Definition isDigit (c : ascii) : bool :=
  (48 <=? JS.code c) && (JS.code c <=? 57).

Fixpoint allDigits (s : string) : bool :=
  match s with
  | EmptyString => true
  | String c rest => isDigit c && allDigits rest
  end.

(** A numeric part: a non-empty run of decimal digits. *)
Definition isNumeric (s : string) : bool :=
  negb (s =? "")%string && allDigits s.

End Wording.

(** ** The table bodies *)

(** The [TableBody] of the two list pages: [rows.map(...)] followed by
    [{rows.length === 0 && (...)}]. *)
Module Tables.

(** A line of a table body: the line of one element of the list, or the
    single line that says that there is none. *)
Inductive Line (A : Type) :=
  | ItemLine (a : A)
  | Placeholder.

Arguments ItemLine {A} a.
Arguments Placeholder {A}.

Definition body {A} (rows : list A) : list (Line A) :=
  (map ItemLine rows
   ++ (if (length rows =? 0)%nat then [Placeholder] else []))%list.

(** The zombie alert table of [RevenueView]. *)
Definition zombieTable (UTC : Z -> Z) (today : Z) : M (list (Line User)) :=
  let* m := Revenue.useMemo UTC today in
  let* zombies := get (Revenue.zombies m) in
  ret (body zombies).

(** The candidates table of [WinBackView]. *)
Definition winBackTable : M (list (Line WinBack.Row)) :=
  let* rows := WinBack.WinBackView in
  ret (body rows).

End Tables.

(** ** Stores that keep what they had *)

(** Every array of [s] is still in [s'], with the same contents. *)
Definition keeps (s s' : store) : Prop :=
  forall r xs, s !! r = Some xs -> s' !! r = Some xs.

(** ** Orderings and totals *)

(** Highest revenue first. *)
Definition descending (us : list User) : Prop :=
  StronglySorted (fun a b => (TotalPayments b <= TotalPayments a)%Q) us.

(** The sum of a list of amounts. *)
Definition sumQ (qs : list Q) : Q := fold_left Qplus qs 0%Q.

(** ** Sample data *)

(** The user of the counterexamples: a Beginner with an active licence
    that ran out on 1 January 2020 and no recorded activity. *)
Definition ann : User :=
  {| UserID := 1;
     Fullname := "Ann Lee";
     Company := "Lee Catering";
     LicenseType := "Beginner";
     Status := "ACTIVE";
     ExpirationDate := "01/01/2020";
     LastActivityDate := "";
     DaysSinceLastActivity := 0;
     RecipeCount := 15;
     DistributorCount := 0;
     TotalPayments := 50 |}.

(** An Expert whose expiration date has a month that is no number. *)
Definition bo : User :=
  {| UserID := 2;
     Fullname := "Bo Ek";
     Company := "Ek Bistro";
     LicenseType := "Expert";
     Status := "ACTIVE";
     ExpirationDate := "31/xx/2020";
     LastActivityDate := "12/10/2026";
     DaysSinceLastActivity := 21;
     RecipeCount := 3;
     DistributorCount := 1;
     TotalPayments := 120 |}.

(** A Professional who never paid. *)
Definition cy : User :=
  {| UserID := 3;
     Fullname := "Cy";
     Company := "";
     LicenseType := "Professional";
     Status := "EXPIRED";
     ExpirationDate := "";
     LastActivityDate := "";
     DaysSinceLastActivity := 0;
     RecipeCount := 0;
     DistributorCount := 0;
     TotalPayments := 0 |}.

(** A store that holds a second array besides [data]. *)
Definition twoArrays : store := <[ 7%nat := [cy] ]> (initial [ann; bo]).

(** A host in the UTC zone, on 2 November 2026 at midnight. *)
Definition utc (t : Z) : Z := t.
Definition nov2026 : Z := 1793577600000.

(** CRM identities registered on 15 January 2024: [ada] and [twin] share
    one address and were last active on the same day, [bob] has his own
    address, [eve] has no recorded activity; a payment; and a matcher
    whose name passes never find a candidate. *)
Definition crmUser (id : Z) (name : string) (mail : option string)
    (reg act : option Engine.date) : Engine.UserRecord :=
  {| Engine.user_id := id;
     Engine.full_name := name;
     Engine.email := mail;
     Engine.company := "";
     Engine.tier := Engine.Beginner;
     Engine.status := Engine.LicenseActive;
     Engine.registration_date := reg;
     Engine.last_activity_date := act;
     Engine.expiration_date := None;
     Engine.usage := {| Engine.recipes := 0; Engine.ingredients := 0;
                        Engine.menus := 0; Engine.distributors := 0 |};
     Engine.total_payments := 0 |}.

Definition jan15 : Engine.date :=
  {| Engine.year := 2024; Engine.month := 1; Engine.day := 15 |}.

Definition jan2024 : Z := 12 * 2024.

Definition ada : Engine.UserRecord :=
  crmUser 1 "Ada Roe" (Some "a@x.com") (Some jan15) (Some jan15).
Definition twin : Engine.UserRecord :=
  crmUser 2 "A. Roe" (Some "a@x.com") (Some jan15) (Some jan15).
Definition bob : Engine.UserRecord :=
  crmUser 3 "Bob Poe" (Some "b@x.com") (Some jan15) (Some jan15).
Definition eve : Engine.UserRecord :=
  crmUser 4 "Eve Moe" None (Some jan15) None.

Definition payment (mail : string) (amt : Q) : Engine.TransactionRecord :=
  {| Engine.tx_date := None;
     Engine.payer_email := mail;
     Engine.payer_name_free_text := "";
     Engine.amount := amt;
     Engine.tx_state := Engine.Paid;
     Engine.matched_user_id := None |}.

Definition noTokens (s : string) : option (list string) := None.
Definition noPartial (tx : Engine.TransactionRecord) (u : Engine.UserRecord) : bool :=
  false.

Definition defaults : Engine.thresholds :=
  {| Engine.dormancy := 30; Engine.long_dormancy := 90 |}.

(** * Properties *)

(** ** The store *)

Section StoreFacts.

Implicit Types (s : store) (r : ref) (xs : list User).

Lemma bind_at {A B} (c : M A) (k : A -> M B) s a s' :
  c s = Some (a, s') -> bind c k s = k a s'.
Proof. intros H. unfold bind. now rewrite H. Qed.

Lemma get_at s r xs : s !! r = Some xs -> get r s = Some (xs, s).
Proof. intros H. unfold get. now rewrite H. Qed.

Lemma set_at s r xs ys :
  s !! r = Some xs -> Store.set r ys s = Some (tt, <[r := ys]> s).
Proof. intros H. unfold Store.set. now rewrite H. Qed.

Lemma fresh_unused s : s !! fresh (dom s) = None.
Proof. apply not_elem_of_dom, is_fresh. Qed.

(** Allocation leaves every array that exists where it is. *)
Lemma alloc_at s ys :
  exists r, alloc ys s = Some (r, <[r := ys]> s)
            /\ s !! r = None.
Proof. exists (fresh (dom s)). split; [reflexivity | apply fresh_unused]. Qed.

End StoreFacts.

Section StoreOps.

Implicit Types (s : store) (a r : ref) (xs : list User).

Lemma unused_other s a r xs : s !! r = None -> s !! a = Some xs -> r <> a.
Proof. intros Hr Ha E. subst. rewrite Hr in Ha. discriminate. Qed.

Lemma spread_at s a xs :
  s !! a = Some xs ->
  exists r, spread a s = Some (r, <[r := xs]> s) /\ s !! r = None.
Proof.
  intros H. destruct (alloc_at s xs) as (r & Hr & Hn).
  exists r. unfold spread, bind. now rewrite (get_at _ _ _ H).
Qed.

Lemma filter_at s a p xs :
  s !! a = Some xs ->
  exists r, Store.filter a p s = Some (r, <[r := List.filter p xs]> s)
            /\ s !! r = None.
Proof.
  intros H. destruct (alloc_at s (List.filter p xs)) as (r & Hr & Hn).
  exists r. unfold Store.filter, bind. now rewrite (get_at _ _ _ H).
Qed.

Lemma slice_at s a n xs :
  s !! a = Some xs ->
  exists r, slice a n s = Some (r, <[r := firstn n xs]> s) /\ s !! r = None.
Proof.
  intros H. destruct (alloc_at s (firstn n xs)) as (r & Hr & Hn).
  exists r. unfold slice, bind. now rewrite (get_at _ _ _ H).
Qed.

Lemma sort_at s a cmp xs :
  s !! a = Some xs ->
  Store.sort a cmp s = Some (a, <[a := JS.sort cmp xs]> s).
Proof.
  intros H. unfold Store.sort, bind.
  now rewrite (get_at _ _ _ H), (set_at _ _ _ _ H).
Qed.

Lemma push_at s a x xs :
  s !! a = Some xs ->
  push a x s = Some (tt, <[a := (xs ++ [x])%list]> s).
Proof.
  intros H. unfold push, bind.
  now rewrite (get_at _ _ _ H), (set_at _ _ _ _ H).
Qed.

(** Sorting is in place: sorting [data] itself would reorder it for every
    later reader, which is why it matters that the components only sort
    arrays of their own. *)
Example sort_in_place :
  option_map (fun out => snd out !! data)
    (Store.sort data byRevenueDesc (initial [ann; bo]))
  = Some (Some [bo; ann]).
Proof. reflexivity. Qed.

End StoreOps.

Section RevenueRun.

Variable UTC : Z -> Z.
Variable today : Z.

Lemma sum_filter_fold (p : User -> bool) xs : forall a,
  fold_left (fun acc u => if p u then (acc + TotalPayments u)%Q else acc) xs a
  = fold_left (fun acc u => (acc + TotalPayments u)%Q) (List.filter p xs) a.
Proof.
  induction xs as [|x xs IH]; intros a; simpl; [reflexivity|].
  destruct (p x); simpl; apply IH.
Qed.

(** One turn of the loop. *)
Lemma callback_at z x l s acc :
  s !! z = Some acc ->
  exists l',
    Revenue.callback UTC today z x l s
    = Some (l', <[z := (acc ++ List.filter (Closed.isZombie UTC today) [x])%list]> s)
    /\ Revenue.totalPayments l' = (Revenue.totalPayments l + TotalPayments x)%Q
    /\ Revenue.userCount l'
       = Revenue.userCount l + Z.of_nat (length (List.filter Closed.paying [x]))
    /\ Revenue.churnRevenue l'
       = fold_left (fun sum u => (sum + TotalPayments u)%Q)
           (List.filter (Closed.isZombie UTC today) [x]) (Revenue.churnRevenue l).
Proof.
  intros Hz. unfold Revenue.callback. simpl.
  fold (Closed.isZombie UTC today x). fold (Closed.paying x).
  destruct (Closed.isZombie UTC today x).
  - unfold bind. rewrite (push_at _ _ _ _ Hz). eexists. split; [reflexivity|].
    simpl. repeat split. destruct (Closed.paying x); simpl; lia.
  - eexists. unfold ret. rewrite app_nil_r, insert_id by assumption.
    split; [reflexivity|].
    simpl. repeat split. destruct (Closed.paying x); simpl; lia.
Qed.

(** The loop: the locals after [forEach], and the zombies pushed. *)
Lemma forEach_callback z xs : forall l s acc,
  s !! z = Some acc ->
  exists l',
    forEachFrom xs (Revenue.callback UTC today z) l s
    = Some (l', <[z := (acc ++ List.filter (Closed.isZombie UTC today) xs)%list]> s)
    /\ Revenue.totalPayments l'
       = fold_left (fun sum u => (sum + TotalPayments u)%Q) xs (Revenue.totalPayments l)
    /\ Revenue.userCount l'
       = Revenue.userCount l + Z.of_nat (length (List.filter Closed.paying xs))
    /\ Revenue.churnRevenue l'
       = fold_left (fun sum u => (sum + TotalPayments u)%Q)
           (List.filter (Closed.isZombie UTC today) xs) (Revenue.churnRevenue l).
Proof.
  induction xs as [|x xs IH]; intros l s acc Hz.
  - exists l. simpl. rewrite app_nil_r, insert_id by assumption.
    repeat split; try reflexivity. lia.
  - destruct (callback_at z x l s acc Hz) as (l1 & Hrun1 & Ht1 & Hc1 & Hr1).
    edestruct (IH l1) as (l' & Hrun & Ht & Hc & Hr).
    { apply lookup_insert_eq. }
    exists l'. change (forEachFrom (x :: xs) ?f l s)
      with (bind (f x l) (fun l' => forEachFrom xs f l') s).
    unfold bind. rewrite Hrun1, Hrun, insert_insert_eq, <- app_assoc.
    change (x :: xs) with ([x] ++ xs)%list.
    rewrite !List.filter_app, List.length_app, fold_left_app.
    rewrite Ht, Hc, Hr, Ht1, Hc1, Hr1. simpl.
    repeat split; [lia|]. now rewrite fold_left_app.
Qed.

(** [RevenueView] shows the closed-form figures and leaves [data] as it
    found it. *)
Lemma RevenueView_run s d :
  s !! data = Some d ->
  exists s',
    Revenue.RevenueView UTC today s = Some (Closed.figures UTC today d, s')
    /\ s' !! data = Some d.
Proof.
  intros Hd. unfold Revenue.RevenueView, Revenue.useMemo.
  destruct (alloc_at s []) as (z & Hz & Hzn).
  assert (z <> data) by eauto using unused_other.
  set (zs := List.filter (Closed.isZombie UTC today) d).
  set (s1 := <[z := zs]> s).
  assert (Hd1 : s1 !! data = Some d) by (subst s1; now rewrite lookup_insert_ne).
  destruct (spread_at s1 data d Hd1) as (c & Hc1 & Hcn).
  assert (c <> data) by eauto using unused_other.
  assert (c <> z) by (eapply unused_other; [exact Hcn|apply lookup_insert_eq]).
  set (s3 := <[c := JS.sort byRevenueDesc d]> s1).
  destruct (slice_at s3 c 10 _ (lookup_insert_eq _ _ _)) as (t & Ht1 & Htn).
  assert (Hz3 : s3 !! z = Some zs).
  { subst s3. rewrite lookup_insert_ne by assumption. apply lookup_insert_eq. }
  assert (Hd3 : s3 !! data = Some d).
  { subst s3. now rewrite lookup_insert_ne. }
  assert (t <> z) by eauto using unused_other.
  assert (t <> data) by eauto using unused_other.
  edestruct (forEach_callback z d) as (l & Hl & Ht & Hc & Hr);
    [apply (lookup_insert_eq s z [])|].
  rewrite insert_insert_eq in Hl. simpl app in Hl. fold zs s1 in Hl.
  erewrite bind_at; cycle 1.
  { erewrite bind_at by exact Hz.
    erewrite bind_at; cycle 1.
    { unfold forEach. erewrite bind_at; [exact Hl|].
      apply get_at. now rewrite lookup_insert_ne. }
    erewrite bind_at by exact Hc1.
    erewrite bind_at; cycle 1.
    { apply sort_at. apply lookup_insert_eq. }
    rewrite insert_insert_eq. fold s3.
    erewrite bind_at by exact Ht1.
    reflexivity. }
  simpl.
  erewrite bind_at; cycle 1.
  { apply get_at. rewrite lookup_insert_ne by assumption. exact Hz3. }
  erewrite bind_at; cycle 1.
  { apply get_at. apply lookup_insert_eq. }
  unfold ret. eexists. split.
  - f_equal. f_equal. unfold Closed.figures, sumPayments.
    rewrite Ht, Hc, Hr. reflexivity.
  - now rewrite lookup_insert_ne.
Qed.

End RevenueRun.

Section OtherRuns.

Lemma WinBackView_run s d :
  s !! data = Some d ->
  exists s',
    WinBack.WinBackView s = Some (Closed.rows d, s') /\ s' !! data = Some d.
Proof.
  intros Hd. unfold WinBack.WinBackView, WinBack.useMemo.
  destruct (filter_at s data WinBack.isCandidate d Hd) as (r & Hr & Hn).
  assert (r <> data) by eauto using unused_other.
  erewrite bind_at; cycle 1.
  { erewrite bind_at by exact Hr. apply sort_at, lookup_insert_eq. }
  rewrite insert_insert_eq.
  erewrite bind_at by apply get_at, lookup_insert_eq.
  eexists. split; [reflexivity|]. now rewrite lookup_insert_ne.
Qed.

Lemma ParetoChart_run s d :
  s !! data = Some d ->
  exists s',
    Pareto.ParetoChart s = Some (Closed.entries d, s') /\ s' !! data = Some d.
Proof.
  intros Hd. unfold Pareto.ParetoChart.
  destruct (spread_at s data d Hd) as (c & Hc & Hcn).
  assert (c <> data) by eauto using unused_other.
  erewrite bind_at by exact Hc.
  erewrite bind_at by apply sort_at, lookup_insert_eq.
  rewrite insert_insert_eq.
  set (s1 := <[c := JS.sort byRevenueDesc d]> s).
  destruct (filter_at s1 c Closed.paying _ (lookup_insert_eq _ _ _))
    as (f & Hf & Hfn).
  assert (Hd1 : s1 !! data = Some d) by (subst s1; now rewrite lookup_insert_ne).
  assert (f <> data) by eauto using unused_other.
  erewrite bind_at by exact Hf.
  erewrite bind_at by apply get_at, lookup_insert_eq.
  set (s2 := <[f := _]> s1).
  destruct (slice_at s2 f 30 _ (lookup_insert_eq _ _ _)) as (t & Ht & Htn).
  assert (t <> data).
  { eapply unused_other; [exact Htn|]. subst s2.
    rewrite lookup_insert_ne by assumption. exact Hd1. }
  erewrite bind_at by exact Ht.
  erewrite bind_at by apply get_at, lookup_insert_eq.
  eexists. split; [reflexivity|].
  rewrite lookup_insert_ne by assumption. subst s2.
  now rewrite lookup_insert_ne.
Qed.

Lemma renderPages_run UTC today s d :
  s !! data = Some d ->
  exists s',
    renderPages UTC today s = Some (Closed.report UTC today d, s')
    /\ s' !! data = Some d.
Proof.
  intros Hd. unfold renderPages.
  destruct (RevenueView_run UTC today s d Hd) as (s1 & H1 & Hd1).
  destruct (ParetoChart_run s1 d Hd1) as (s2 & H2 & Hd2).
  destruct (WinBackView_run s2 d Hd2) as (s3 & H3 & Hd3).
  erewrite bind_at by exact H1.
  erewrite bind_at by exact H2.
  erewrite bind_at by exact H3.
  exists s3. split; [reflexivity | assumption].
Qed.

Lemma initial_data d : initial d !! data = Some d.
Proof. apply lookup_singleton_eq. Qed.

End OtherRuns.

(** ** Comparisons and sorting *)

Lemma Qgt_bool_iff (a b : Q) : JS.Qgt_bool a b = true <-> (b < a)%Q.
Proof.
  unfold JS.Qgt_bool. rewrite negb_true_iff. split.
  - intros H. apply Qnot_le_lt. intros Hle.
    apply Qle_bool_iff in Hle. congruence.
  - intros H. destruct (Qle_bool a b) eqn:E; [|reflexivity].
    apply Qle_bool_iff in E. exfalso. exact (Qlt_not_le _ _ H E).
Qed.

Lemma isZombie_iff UTC today u :
  Closed.isZombie UTC today u = true
  <-> Status u = "ACTIVE" /\ Revenue.isExpired UTC today (ExpirationDate u) = true.
Proof.
  unfold Closed.isZombie. now rewrite andb_true_iff, String.eqb_eq.
Qed.

Section Sorting.

Context {A : Type} (cmp : A -> A -> Q).

Lemma insert_perm x l : Permutation (JS.insert cmp x l) (x :: l).
Proof.
  induction l as [|y l IH]; simpl; [reflexivity|].
  destruct (Qle_bool (cmp x y) 0); [reflexivity|].
  rewrite IH. apply perm_swap.
Qed.

Lemma sort_perm l : Permutation (JS.sort cmp l) l.
Proof.
  induction l as [|x l IH]; simpl; [reflexivity|].
  now rewrite insert_perm, IH.
Qed.

Lemma sort_In x l : In x (JS.sort cmp l) <-> In x l.
Proof.
  split; apply Permutation_in; [|symmetry]; apply sort_perm.
Qed.

End Sorting.

(** ** RevenueView *)

(** C1, as worded: the expiry rule would list a user only when neither
    the absent-activity rule nor the dormancy rule holds for them.
    [RevenueView] lists [ann], for whom the absent-activity rule holds. *)
Lemma zombie_list_ignores_health_priority :
  ~ (forall UTC today d u f s',
        In u d ->
        Revenue.RevenueView UTC today (initial d) = Some (f, s') ->
        (In u (Revenue.shownZombies f) <-> Wording.rule3 UTC today u = true)).
Proof.
  intros H.
  destruct (RevenueView_run utc nov2026 (initial [ann]) [ann] (initial_data _))
    as (s' & Hrun & _).
  specialize (H utc nov2026 [ann] ann _ _ (or_introl eq_refl) Hrun).
  assert (Hin : In ann (Revenue.shownZombies (Closed.figures utc nov2026 [ann]))).
  { left. reflexivity. }
  apply H in Hin. vm_compute in Hin. discriminate.
Qed.

(** C1, amended: [RevenueView] lists exactly the users of [data] whose
    [Status] is ["ACTIVE"] and for whom [isExpired] holds of
    [ExpirationDate], in the order of [data] and whatever their activity;
    the potential-churn figure is the sum of [TotalPayments] over exactly
    the listed users. *)
Theorem zombie_list_exact (UTC : Z -> Z) (today : Z) (d : list User) :
  exists f s',
    Revenue.RevenueView UTC today (initial d) = Some (f, s')
    /\ Revenue.shownZombies f
       = List.filter
           (fun u => (Status u =? "ACTIVE")%string
                     && Revenue.isExpired UTC today (ExpirationDate u)) d
    /\ (forall u,
          In u (Revenue.shownZombies f)
          <-> In u d /\ Status u = "ACTIVE"
              /\ Revenue.isExpired UTC today (ExpirationDate u) = true)
    /\ Revenue.shownPotentialChurn f = sumPayments (Revenue.shownZombies f).
Proof.
  destruct (RevenueView_run UTC today (initial d) d (initial_data d))
    as (s' & Hrun & _).
  exists (Closed.figures UTC today d), s'.
  split; [exact Hrun|]. split; [reflexivity|]. split; [|reflexivity].
  intros u. simpl. rewrite filter_In, isZombie_iff. reflexivity.
Qed.

(** [isExpired] spelled out: three parts that make a valid date whose
    local midnight lies strictly before the current instant. *)
Lemma isExpired_true_iff UTC today s :
  Revenue.isExpired UTC today s = true
  <-> s <> ""
      /\ exists p0 p1 p2 t,
           JS.split "/" s = [p0; p1; p2]
           /\ JS.Date3 UTC (JS.parseInt p2) (JS.minus (JS.parseInt p1) 1)
                (JS.parseInt p0) = Some t
           /\ t < today.
Proof.
  unfold Revenue.isExpired.
  destruct (String.eqb_spec s "") as [->|Hne].
  - split; [discriminate|]. intros [H _]. now elim H.
  - destruct (JS.split "/" s) as [|p0 [|p1 [|p2 [|p3 ps]]]] eqn:Es; simpl;
      try (split; [discriminate | intros (_ & ? & ? & ? & ? & ? & _); discriminate]).
    destruct (JS.Date3 UTC _ _ _) as [t|] eqn:Ed; simpl.
    + rewrite Z.ltb_lt. split.
      * intros Ht. split; [assumption|]. exists p0, p1, p2, t. auto.
      * intros (_ & q0 & q1 & q2 & t' & Hq & Ht' & Hlt).
        injection Hq as <- <- <-. rewrite Ed in Ht'. now injection Ht' as <-.
    + split; [discriminate|].
      intros (_ & q0 & q1 & q2 & t' & Hq & Ht' & _).
      injection Hq as <- <- <-. rewrite Ed in Ht'. discriminate.
Qed.

(** A licence whose last day is today counts as expired as soon as the
    day has begun, and not at midnight sharp. *)
Example isExpired_on_the_day :
  Revenue.isExpired utc nov2026 "02/11/2026" = false
  /\ Revenue.isExpired utc (nov2026 + 1) "02/11/2026" = true.
Proof. split; reflexivity. Qed.

(** C8, as worded: a date with a part that is not a number would never
    count as expired.  [parseInt] reads the leading digits of ["1x"]. *)
Lemma isExpired_reads_leading_digits :
  ~ (forall UTC today s,
        (exists p, In p (JS.split "/" s) /\ Wording.isNumeric p = false) ->
        Revenue.isExpired UTC today s = false).
Proof.
  intros H.
  assert (E : Revenue.isExpired utc nov2026 "1x/01/2020" = false).
  { apply H. exists "1x". split; [left|]; reflexivity. }
  vm_compute in E. discriminate.
Qed.

Lemma Date3_NaN UTC y m dt :
  y = JS.NaN \/ m = JS.NaN \/ dt = JS.NaN -> JS.Date3 UTC y m dt = JS.NaN.
Proof.
  unfold JS.Date3, JS.MakeDate, JS.MakeDay, JS.NaN.
  intros [-> | [-> | ->]]; [reflexivity | |].
  - now destruct y as [y|]; [destruct ((0 <=? y) && (y <=? 99))|].
  - destruct y as [y|]; [destruct ((0 <=? y) && (y <=? 99))|];
      now destruct m.
Qed.

Lemma isExpired_unparsable UTC today s :
  s = ""
  \/ length (JS.split "/" s) <> 3%nat
  \/ (exists p, In p (JS.split "/" s) /\ JS.parseInt p = JS.NaN) ->
  Revenue.isExpired UTC today s = false.
Proof.
  unfold Revenue.isExpired. intros [-> | H]; [reflexivity|].
  destruct (s =? "")%string; [reflexivity|].
  destruct (Nat.eqb_spec (length (JS.split "/" s)) 3) as [E|E]; simpl;
    [|reflexivity].
  destruct H as [H | (p & Hin & Hp)]; [contradiction|].
  destruct (JS.split "/" s) as [|p0 [|p1 [|p2 [|p3 ps]]]]; try discriminate.
  simpl. rewrite Date3_NaN; [reflexivity|].
  destruct Hin as [<- | [<- | [<- | []]]]; rewrite Hp; auto.
Qed.

(** C8, amended: [isExpired] is a total function, and it answers [false]
    for an [ExpirationDate] that is empty, that does not split into three
    parts at ['/'], or one of whose parts has no leading integer for
    [parseInt]; such a user is not listed as a zombie and the figures are
    those of the data set without them, whatever their [Status]. *)
Theorem isExpired_fails_closed (UTC : Z -> Z) (today : Z) (d1 : list User)
    (u : User) (d2 : list User) :
  ExpirationDate u = ""
  \/ length (JS.split "/" (ExpirationDate u)) <> 3%nat
  \/ (exists p, In p (JS.split "/" (ExpirationDate u)) /\ JS.parseInt p = JS.NaN) ->
  Revenue.isExpired UTC today (ExpirationDate u) = false
  /\ exists f f' s s',
       Revenue.RevenueView UTC today (initial (d1 ++ u :: d2)) = Some (f, s)
       /\ Revenue.RevenueView UTC today (initial (d1 ++ d2)) = Some (f', s')
       /\ ~ In u (Revenue.shownZombies f)
       /\ Revenue.shownZombies f = Revenue.shownZombies f'
       /\ Revenue.shownPotentialChurn f = Revenue.shownPotentialChurn f'.
Proof.
  intros H. apply (isExpired_unparsable UTC today) in H. split; [exact H|].
  destruct (RevenueView_run UTC today (initial (d1 ++ u :: d2)) _ (initial_data _))
    as (s & Hrun & _).
  destruct (RevenueView_run UTC today (initial (d1 ++ d2)) _ (initial_data _))
    as (s' & Hrun' & _).
  do 4 eexists. split; [exact Hrun|]. split; [exact Hrun'|].
  assert (Hz : Closed.isZombie UTC today u = false).
  { unfold Closed.isZombie. rewrite H. apply andb_false_r. }
  assert (E : List.filter (Closed.isZombie UTC today) (d1 ++ u :: d2)
              = List.filter (Closed.isZombie UTC today) (d1 ++ d2)).
  { rewrite !List.filter_app. simpl. now rewrite Hz. }
  simpl. rewrite E. split; [|split; reflexivity].
  rewrite filter_In. intros [_ Hu]. congruence.
Qed.

Lemma isExpired_fails_closed_witness :
  (ExpirationDate bo = ""
   \/ length (JS.split "/" (ExpirationDate bo)) <> 3%nat
   \/ (exists p, In p (JS.split "/" (ExpirationDate bo)) /\ JS.parseInt p = JS.NaN))
  /\ Revenue.isExpired utc nov2026 (ExpirationDate bo) = false
  /\ exists f f' s s',
       Revenue.RevenueView utc nov2026 (initial ([ann] ++ bo :: [])) = Some (f, s)
       /\ Revenue.RevenueView utc nov2026 (initial ([ann] ++ [])) = Some (f', s')
       /\ ~ In bo (Revenue.shownZombies f)
       /\ Revenue.shownZombies f = Revenue.shownZombies f'
       /\ Revenue.shownPotentialChurn f = Revenue.shownPotentialChurn f'.
Proof.
  assert (H : ExpirationDate bo = ""
              \/ length (JS.split "/" (ExpirationDate bo)) <> 3%nat
              \/ (exists p, In p (JS.split "/" (ExpirationDate bo))
                            /\ JS.parseInt p = JS.NaN)).
  { right. right. exists "xx". split; [right; left|]; reflexivity. }
  split; [exact H|].
  exact (isExpired_fails_closed utc nov2026 [ann] bo [] H).
Defined.

(** C9: the ARPU figure is the sum of all users' [TotalPayments] divided
    by the number of users whose [TotalPayments] is strictly positive, and
    0 when there is no such user. *)
Theorem arpu_over_paying_users (UTC : Z -> Z) (today : Z) (d : list User) :
  exists f s',
    Revenue.RevenueView UTC today (initial d) = Some (f, s')
    /\ let payingUsers :=
         Z.of_nat (length (List.filter
                             (fun u => JS.Qgt_bool (TotalPayments u) 0) d)) in
       Revenue.shownArpu f
       = if 0 <? payingUsers
         then (sumPayments d / inject_Z payingUsers)%Q
         else 0%Q.
Proof.
  destruct (RevenueView_run UTC today (initial d) d (initial_data d))
    as (s' & Hrun & _).
  exists (Closed.figures UTC today d), s'. split; [exact Hrun|]. reflexivity.
Qed.

(** ** Re-running the pages *)

(** C4: for a fixed [data], time zone and current instant, a second pass
    over the pages, started from the store the first pass leaves behind,
    shows the same figures as the first; they are a function of these
    inputs alone, and [data] itself is never modified. *)
Theorem pages_rerun_identical (UTC : Z -> Z) (today : Z) (s : store)
    (d : list User) :
  s !! data = Some d ->
  exists rep s1 s2,
    renderPages UTC today s = Some (rep, s1)
    /\ renderPages UTC today s1 = Some (rep, s2)
    /\ rep = Closed.report UTC today d
    /\ s1 !! data = Some d
    /\ s2 !! data = Some d.
Proof.
  intros Hd.
  destruct (renderPages_run UTC today s d Hd) as (s1 & H1 & Hd1).
  destruct (renderPages_run UTC today s1 d Hd1) as (s2 & H2 & Hd2).
  exists (Closed.report UTC today d), s1, s2. auto 6.
Qed.

Lemma pages_rerun_identical_witness :
  initial [ann; bo] !! data = Some [ann; bo]
  /\ exists rep s1 s2,
       renderPages utc nov2026 (initial [ann; bo]) = Some (rep, s1)
       /\ renderPages utc nov2026 s1 = Some (rep, s2)
       /\ rep = Closed.report utc nov2026 [ann; bo]
       /\ s1 !! data = Some [ann; bo]
       /\ s2 !! data = Some [ann; bo].
Proof.
  split; [reflexivity|].
  apply (pages_rerun_identical utc nov2026 (initial [ann; bo]) [ann; bo]).
  reflexivity.
Defined.

(** ** WinBackView *)

Lemma isCandidate_iff u :
  WinBack.isCandidate u = true
  <-> JS.toLowerCase (LicenseType u) = "beginner" /\ (0 < TotalPayments u)%Q.
Proof.
  unfold WinBack.isCandidate.
  now rewrite andb_true_iff, String.eqb_eq, Qgt_bool_iff.
Qed.

Lemma rows_users d :
  map WinBack.user (Closed.rows d)
  = JS.sort byRevenueDesc (List.filter WinBack.isCandidate d).
Proof.
  unfold Closed.rows. rewrite map_map. simpl. apply map_id.
Qed.

(** C2: a user is in the win-back list if and only if they are in [data],
    their licence type is Beginner (in any letter case) and their
    [TotalPayments] is strictly positive; the list is a rearrangement of
    those users. *)
Theorem winback_candidates (d : list User) :
  exists rows s',
    WinBack.WinBackView (initial d) = Some (rows, s')
    /\ (forall u,
          In u (map WinBack.user rows)
          <-> In u d /\ JS.toLowerCase (LicenseType u) = "beginner"
              /\ (0 < TotalPayments u)%Q)
    /\ Permutation (map WinBack.user rows) (List.filter WinBack.isCandidate d).
Proof.
  destruct (WinBackView_run (initial d) d (initial_data d)) as (s' & Hrun & _).
  exists (Closed.rows d), s'. split; [exact Hrun|].
  rewrite rows_users. split.
  - intros u. now rewrite sort_In, filter_In, isCandidate_iff.
  - apply sort_perm.
Qed.

(** C5, as worded: the flag would follow whatever ceiling is configured.
    With a ceiling of 10, [ann] (15 recipes) would be flagged; the
    component compares with 20 and does not flag her. *)
Lemma upsell_ceiling_is_not_configurable :
  ~ (forall (ceiling : Z) d rows s',
        WinBack.WinBackView (initial d) = Some (rows, s') ->
        forall r, In r rows ->
                  (WinBack.isUpsellTarget r = true
                   <-> ceiling < RecipeCount (WinBack.user r))).
Proof.
  intros H.
  destruct (WinBackView_run (initial [ann]) [ann] (initial_data _))
    as (s' & Hrun & _).
  specialize (H 10 [ann] _ _ Hrun (WinBack.row ann) (or_introl eq_refl)).
  assert (E : WinBack.isUpsellTarget (WinBack.row ann) = true).
  { apply H. reflexivity. }
  vm_compute in E. discriminate.
Qed.

(** C5, amended: a row of the win-back list carries the upsell flag if and
    only if the user's [RecipeCount] strictly exceeds 20, a ceiling fixed
    in the component; two rows with the same [RecipeCount] carry the same
    flag. *)
Theorem upsell_flag_above_twenty (d : list User) :
  exists rows s',
    WinBack.WinBackView (initial d) = Some (rows, s')
    /\ (forall r, In r rows ->
                  (WinBack.isUpsellTarget r = true
                   <-> 20 < RecipeCount (WinBack.user r)))
    /\ (forall r r', In r rows -> In r' rows ->
                     RecipeCount (WinBack.user r) = RecipeCount (WinBack.user r') ->
                     WinBack.isUpsellTarget r = WinBack.isUpsellTarget r').
Proof.
  destruct (WinBackView_run (initial d) d (initial_data d)) as (s' & Hrun & _).
  exists (Closed.rows d), s'. split; [exact Hrun|].
  unfold Closed.rows. split.
  - intros r Hr. apply in_map_iff in Hr as (u & <- & _). simpl.
    apply Z.ltb_lt.
  - intros r r' Hr Hr' E.
    apply in_map_iff in Hr as (u & <- & _).
    apply in_map_iff in Hr' as (u' & <- & _). simpl in *. now rewrite E.
Qed.

Lemma upsell_flag_above_twenty_witness :
  exists rows s',
    WinBack.WinBackView (initial [ann]) = Some (rows, s')
    /\ In (WinBack.row ann) rows
    /\ (WinBack.isUpsellTarget (WinBack.row ann) = true
        <-> 20 < RecipeCount (WinBack.user (WinBack.row ann))).
Proof.
  destruct (upsell_flag_above_twenty [ann]) as (rows & s' & Hrun & Hflag & _).
  assert (Hin : In (WinBack.row ann) rows).
  { destruct (WinBackView_run (initial [ann]) [ann] (initial_data _))
      as (s'' & Hrun' & _).
    rewrite Hrun in Hrun'. injection Hrun' as -> _. left. reflexivity. }
  exists rows, s'. split; [exact Hrun|]. split; [exact Hin|].
  exact (Hflag _ Hin).
Defined.

(** ** ParetoChart *)

Section Sums.

Local Open Scope Q_scope.

Lemma fold_payments_acc (l : list User) : forall a,
  fold_left (fun sum u => sum + TotalPayments u) l a == a + sumPayments l.
Proof.
  unfold sumPayments.
  induction l as [|x l IH]; intros a; simpl; [ring|].
  rewrite (IH (a + TotalPayments x)), (IH (0 + TotalPayments x)). ring.
Qed.

Lemma sumPayments_cons x l :
  sumPayments (x :: l) == TotalPayments x + sumPayments l.
Proof.
  unfold sumPayments at 1. simpl. rewrite fold_payments_acc. ring.
Qed.

Lemma sumPayments_nonneg l :
  (forall u, In u l -> 0 < TotalPayments u) -> 0 <= sumPayments l.
Proof.
  induction l as [|x l IH]; intros H.
  - apply Qle_refl.
  - rewrite sumPayments_cons.
    assert (0 < TotalPayments x) by (apply H; now left).
    assert (0 <= sumPayments l) by (apply IH; intros; apply H; now right).
    lra.
Qed.

Lemma sumPayments_pos x l :
  (forall u, In u (x :: l) -> 0 < TotalPayments u) -> 0 < sumPayments (x :: l).
Proof.
  intros H. rewrite sumPayments_cons.
  assert (0 < TotalPayments x) by (apply H; now left).
  assert (0 <= sumPayments l)
    by (apply sumPayments_nonneg; intros; apply H; now right).
  lra.
Qed.

(** Percentages of a positive total. *)
Lemma percentage_le a b t : 0 < t -> a <= b -> a / t * 100 <= b / t * 100.
Proof.
  intros Ht Hab. apply Qmult_le_compat_r; [|discriminate].
  apply Qmult_le_compat_r; [assumption|].
  apply Qlt_le_weak, Qinv_lt_0_compat, Ht.
Qed.

Lemma percentage_whole t : 0 < t -> t / t * 100 == 100.
Proof. intros Ht. field. intros E. rewrite E in Ht. discriminate. Qed.

(** The entries of a run of paying users: in non-decreasing order of
    percentage, between where the run starts and 100. *)
Lemma mapEntries_bounds total top : forall c,
  0 < total ->
  (forall u, In u top -> 0 < TotalPayments u) ->
  c + sumPayments top <= total ->
  StronglySorted Qle (map Pareto.cumulativePercentage (Pareto.mapEntries total top c))
  /\ forall e, In e (Pareto.mapEntries total top c) ->
               c / total * 100 <= Pareto.cumulativePercentage e
               /\ Pareto.cumulativePercentage e <= 100.
Proof.
  induction top as [|u top IH]; intros c Ht Hpos Hle; simpl.
  - split; [constructor | contradiction].
  - assert (Hu : 0 < TotalPayments u) by (apply Hpos; now left).
    assert (Hpos' : forall v, In v top -> 0 < TotalPayments v)
      by (intros; apply Hpos; now right).
    assert (Hs : 0 <= sumPayments top) by now apply sumPayments_nonneg.
    rewrite sumPayments_cons in Hle.
    destruct (IH (c + TotalPayments u) Ht Hpos') as [Hsorted Hbounds]; [lra|].
    assert (Hhead : (c + TotalPayments u) / total * 100 <= 100).
    { apply Qle_trans with (total / total * 100).
      - apply percentage_le; [assumption|lra].
      - rewrite percentage_whole by assumption. apply Qle_refl. }
    assert (Hstep : c / total * 100 <= (c + TotalPayments u) / total * 100).
    { apply percentage_le; [assumption|lra]. }
    split.
    + constructor; [exact Hsorted|].
      apply List.Forall_forall. intros q Hq.
      apply in_map_iff in Hq as (e & <- & He). now apply Hbounds.
    + intros e [<- | He]; simpl; [now split|].
      destruct (Hbounds e He) as [Hlo Hhi]. split; [|exact Hhi].
      eapply Qle_trans; eassumption.
Qed.

(** The last entry carries the running sum of the whole run. *)
Lemma mapEntries_last total top : forall c es e,
  Pareto.mapEntries total top c = (es ++ [e])%list ->
  Pareto.cumulativePercentage e
  = fold_left (fun sum u => sum + TotalPayments u) top c / total * 100.
Proof.
  induction top as [|u top IH]; intros c es e H; simpl in H.
  - now destruct es.
  - destruct es as [|e0 es]; simpl in H.
    + injection H as <- Hnil. destruct top; [reflexivity | discriminate].
    + injection H as _ Htail. simpl. eapply IH. exact Htail.
Qed.

End Sums.

Lemma filter_length_perm {A} (p : A -> bool) (l l' : list A) :
  Permutation l l' -> length (List.filter p l) = length (List.filter p l').
Proof.
  induction 1 as [|x l l' _ IH|x y l|l l' l'' _ IH1 _ IH2]; simpl.
  - reflexivity.
  - destruct (p x); simpl; now rewrite IH.
  - destruct (p x), (p y); reflexivity.
  - now rewrite IH1.
Qed.

(** C10: the cumulative percentages of the chart never decrease along the
    list and none exceeds 100; when at most 30 users have strictly
    positive [TotalPayments], the last entry stands at 100.  (The chart
    only keeps users with positive payments, so nothing need be assumed
    of the others.) *)
Theorem pareto_cumulative_percentages (d : list User) :
  exists es s',
    Pareto.ParetoChart (initial d) = Some (es, s')
    /\ StronglySorted Qle (map Pareto.cumulativePercentage es)
    /\ (forall e, In e es -> (Pareto.cumulativePercentage e <= 100)%Q)
    /\ ((length (List.filter (fun u => JS.Qgt_bool (TotalPayments u) 0) d)
         <= 30)%nat ->
        forall es' e, es = (es' ++ [e])%list ->
                      (Pareto.cumulativePercentage e == 100)%Q).
Proof.
  destruct (ParetoChart_run (initial d) d (initial_data d)) as (s' & Hrun & _).
  exists (Closed.entries d), s'. split; [exact Hrun|].
  unfold Closed.entries.
  set (us := List.filter Closed.paying (JS.sort byRevenueDesc d)).
  assert (Hpos : forall u, In u us -> (0 < TotalPayments u)%Q).
  { intros u Hu. apply filter_In in Hu as [_ Hu]. now apply Qgt_bool_iff. }
  destruct (firstn 30 us) as [|u0 top] eqn:Etop.
  { simpl. repeat split; [constructor | contradiction |].
    intros _ [|? ?] ?; discriminate. }
  assert (Hsplit : us = ((u0 :: top) ++ skipn 30 us)%list).
  { rewrite <- Etop. symmetry. apply firstn_skipn. }
  assert (Hall : forall u, In u (u0 :: top) -> (0 < TotalPayments u)%Q).
  { intros u Hu. apply Hpos. rewrite Hsplit. apply in_or_app. now left. }
  assert (Htotal : (0 < sumPayments us)%Q).
  { destruct us as [|x us']; [discriminate|]. now apply sumPayments_pos. }
  assert (Hle : (0 + sumPayments (u0 :: top) <= sumPayments us)%Q).
  { assert (Hrest : (0 <= sumPayments (skipn 30 us))%Q).
    { apply sumPayments_nonneg. intros u Hu. apply Hpos.
      rewrite <- (firstn_skipn 30 us). apply in_or_app. now right. }
    assert (E : (sumPayments us
                 == sumPayments (u0 :: top) + sumPayments (skipn 30 us))%Q).
    { rewrite Hsplit at 1. unfold sumPayments at 1.
      rewrite fold_left_app, fold_payments_acc. reflexivity. }
    lra. }
  destruct (mapEntries_bounds (sumPayments us) (u0 :: top) 0 Htotal Hall Hle)
    as [Hsorted Hbounds].
  split; [exact Hsorted|]. split; [intros e He; now apply Hbounds|].
  intros Hfew es' e Hes.
  assert (Hlen : (length us <= 30)%nat).
  { unfold us. erewrite filter_length_perm by apply sort_perm. exact Hfew. }
  rewrite (firstn_all2 us Hlen) in Etop.
  rewrite (mapEntries_last _ _ _ _ _ Hes), <- Etop.
  now apply percentage_whole.
Qed.

Lemma pareto_cumulative_percentages_witness :
  (length (List.filter (fun u => JS.Qgt_bool (TotalPayments u) 0) [ann; bo])
   <= 30)%nat
  /\ exists es s',
       Pareto.ParetoChart (initial [ann; bo]) = Some (es, s')
       /\ forall es' e, es = (es' ++ [e])%list ->
                        (Pareto.cumulativePercentage e == 100)%Q.
Proof.
  assert (Hfew : (length (List.filter
                            (fun u => JS.Qgt_bool (TotalPayments u) 0) [ann; bo])
                  <= 30)%nat) by (simpl; lia).
  split; [exact Hfew|].
  destruct (pareto_cumulative_percentages [ann; bo])
    as (es & s' & Hrun & _ & _ & Hlast).
  exists es, s'. split; [exact Hrun | exact (Hlast Hfew)].
Defined.

(** ** Health classification *)

Section Health.

Import Engine.

Variable cfg : thresholds.
Variable today : date.

Lemma firing_guard u : guard cfg today (firing cfg today u) u = true.
Proof.
  unfold firing.
  destruct (guard cfg today Rule1 u) eqn:E1; [exact E1|].
  destruct (guard cfg today Rule2 u) eqn:E2; [exact E2|].
  destruct (guard cfg today Rule3 u) eqn:E3; [exact E3|].
  destruct (guard cfg today Rule4 u) eqn:E4; [exact E4|].
  reflexivity.
Qed.

Lemma firing_first u r :
  In r (earlier (firing cfg today u)) -> guard cfg today r u = false.
Proof.
  unfold firing.
  destruct (guard cfg today Rule1 u) eqn:E1; [contradiction|].
  destruct (guard cfg today Rule2 u) eqn:E2;
    [intros [<- | []]; assumption|].
  destruct (guard cfg today Rule3 u) eqn:E3;
    [intros [<- | [<- | []]]; assumption|].
  destruct (guard cfg today Rule4 u) eqn:E4;
    [intros [<- | [<- | [<- | []]]]; assumption|].
  intros [<- | [<- | [<- | [<- | []]]]]; assumption.
Qed.

Lemma receives_health u : receives cfg today u (health cfg today u).
Proof.
  exists (firing cfg today u).
  split; [apply firing_guard|]. split; [apply firing_first | reflexivity].
Qed.

Lemma receives_firing u r :
  guard cfg today r u = true ->
  (forall r', In r' (earlier r) -> guard cfg today r' u = false) ->
  firing cfg today u = r.
Proof.
  intros Hg Hfirst. unfold firing.
  destruct r; simpl in Hfirst;
    repeat match goal with
           | |- context [guard cfg today ?q u] =>
               first [ rewrite Hg
                     | rewrite (Hfirst q) by (simpl; tauto) ]
           end; reflexivity.
Qed.

Lemma receives_unique u h : receives cfg today u h -> h = health cfg today u.
Proof.
  intros (r & Hg & Hfirst & <-). unfold health.
  now rewrite (receives_firing u r Hg Hfirst).
Qed.

Lemma unknown_by_rule1 u :
  health cfg today u = Unknown -> known (tier u) = true.
Proof.
  unfold health, firing.
  destruct (guard cfg today Rule1 u) eqn:E1.
  - intros _. simpl in E1. now apply andb_true_iff in E1.
  - destruct (guard cfg today Rule2 u); [discriminate|].
    destruct (guard cfg today Rule3 u); [discriminate|].
    destruct (guard cfg today Rule4 u); discriminate.
Qed.

End Health.

(** C6: every [UserRecord] receives exactly one health state (one rule
    holds with none before it, and whatever state a record receives is the
    one the classifier computes); for a record classified [Unknown] the
    reason code is the table entry of its segment (Beginner:
    dormant/abandoned, Professional: blind-spot, Expert: critical-blank),
    so two such records of the same segment carry the same code whatever
    their other fields, the thresholds and the date. *)
Theorem health_classification_total (cfg : Engine.thresholds)
    (today : Engine.date) (u : Engine.UserRecord) :
  Engine.receives cfg today u (Engine.health cfg today u)
  /\ (forall h, Engine.receives cfg today u h -> h = Engine.health cfg today u)
  /\ (Engine.health cfg today u = Engine.Unknown ->
      Engine.diagnosis cfg today u = Engine.reason (Engine.tier u)
      /\ exists code, Engine.reason (Engine.tier u) = Some code)
  /\ (forall cfg' today' u',
        Engine.health cfg today u = Engine.Unknown ->
        Engine.health cfg' today' u' = Engine.Unknown ->
        Engine.tier u = Engine.tier u' ->
        Engine.diagnosis cfg today u = Engine.diagnosis cfg' today' u')
  /\ Engine.reason Engine.Beginner = Some Engine.DormantAbandoned
  /\ Engine.reason Engine.Professional = Some Engine.BlindSpot
  /\ Engine.reason Engine.Expert = Some Engine.CriticalBlank.
Proof.
  split; [apply receives_health|].
  split; [intros h; apply receives_unique|].
  split.
  - intros H. unfold Engine.diagnosis. rewrite H. split; [reflexivity|].
    apply unknown_by_rule1 in H. destruct (Engine.tier u); try discriminate;
      eexists; reflexivity.
  - split; [|repeat split].
    intros cfg' today' u' H H' E. unfold Engine.diagnosis.
    now rewrite H, H', E.
Qed.

Lemma health_classification_total_witness :
  Engine.health defaults jan15 eve = Engine.Unknown
  /\ Engine.diagnosis defaults jan15 eve = Some Engine.DormantAbandoned
  /\ forall h, Engine.receives defaults jan15 eve h -> h = Engine.Unknown.
Proof.
  destruct (health_classification_total defaults jan15 eve)
    as (_ & Hunique & Hreason & _).
  split; [reflexivity|]. split.
  - exact (proj1 (Hreason eq_refl)).
  - exact Hunique.
Defined.

(** ** Identity matching *)

Section Matching.

Import Engine.

Variable name_tokens : string -> option (list string).
Variable partial_name : TransactionRecord -> UserRecord -> bool.

Lemma at_least_as_recent_refl u : at_least_as_recent u u = true.
Proof.
  unfold at_least_as_recent.
  destruct (last_activity_date u); [apply Z.leb_refl | reflexivity].
Qed.

Lemma at_least_as_recent_total u v :
  at_least_as_recent v u = false -> at_least_as_recent u v = true.
Proof.
  unfold at_least_as_recent.
  destruct (last_activity_date u), (last_activity_date v);
    try discriminate; try reflexivity.
  rewrite Z.leb_gt, Z.leb_le. lia.
Qed.

(** A list without repetition in which [p] singles out [u]. *)
Lemma filter_single {A} (p : A -> bool) (u : A) (l : list A) :
  List.NoDup l -> In u l -> p u = true ->
  (forall v, In v l -> v <> u -> p v = false) ->
  List.filter p l = [u].
Proof.
  induction l as [|x l IH]; intros Hnd Hin Hu Hothers; [contradiction|].
  apply List.NoDup_cons_iff in Hnd as [Hx Hnd]. simpl.
  destruct Hin as [-> | Hin].
  - rewrite Hu. f_equal.
    assert (Hnone : forall v, In v l -> p v = false).
    { intros v Hv. apply Hothers; [now right|]. intros ->. contradiction. }
    clear -Hnone. induction l as [|y l IH]; [reflexivity|]. simpl.
    rewrite (Hnone y) by now left. apply IH. intros; apply Hnone; now right.
  - rewrite (Hothers x) by (try (now left); intros ->; contradiction).
    apply IH; auto. intros; apply Hothers; auto. now right.
Qed.

Lemma NoDup_filter_list {A} (p : A -> bool) (l : list A) :
  List.NoDup l -> List.NoDup (List.filter p l).
Proof.
  induction 1 as [|x l Hx _ IH]; simpl; [constructor|].
  destruct (p x); [|exact IH].
  constructor; [|exact IH]. rewrite filter_In. tauto.
Qed.

(** A pass with a candidate that is strictly the most recent of all. *)
Lemma resolve_winner c cands u :
  List.NoDup cands -> In u cands ->
  (forall v, In v cands -> v <> u -> at_least_as_recent v u = false) ->
  resolve c cands = Some (Matched (user_id u) c).
Proof.
  intros Hnd Hin Hbest. unfold resolve.
  rewrite (filter_single _ u cands Hnd Hin).
  - destruct cands; [contradiction | reflexivity].
  - apply forallb_forall. intros v Hv.
    destruct (at_least_as_recent u v) eqn:E; [reflexivity|].
    assert (Hne : v <> u).
    { intros ->. rewrite at_least_as_recent_refl in E. discriminate. }
    rewrite (at_least_as_recent_total _ _ (Hbest v Hv Hne)) in E. discriminate.
  - intros v Hv Hne. apply not_true_is_false. intros Hall.
    rewrite forallb_forall in Hall. specialize (Hall u Hin).
    rewrite (Hbest v Hv Hne) in Hall. discriminate.
Qed.

Lemma filter_none {A} (p : A -> bool) (l : list A) :
  (forall x, In x l -> p x = false) -> List.filter p l = [].
Proof.
  induction l as [|x l IH]; intros H; [reflexivity|]. simpl.
  rewrite (H x) by now left. apply IH. intros; apply H; now right.
Qed.

Lemma gross_revenue_snoc txs tx :
  gross_revenue (txs ++ [tx]) = (gross_revenue txs + amount tx)%Q.
Proof. unfold gross_revenue. now rewrite fold_left_app. Qed.

Lemma per_user_total_snoc users txs tx uid :
  per_user_total name_tokens partial_name users (txs ++ [tx]) uid
  = (per_user_total name_tokens partial_name users txs uid
     + share uid (reconcile name_tokens partial_name users tx))%Q.
Proof. unfold per_user_total. now rewrite fold_left_app. Qed.

End Matching.

(** C3, as worded: an exact email match would always set
    [matched_user_id].  Two identities that share the address and tie on
    recency leave the payment ambiguous, with no user chosen. *)
Lemma shared_address_tie_is_ambiguous :
  ~ (forall name_tokens partial_name users tx u,
        In u users ->
        Engine.email_match tx u = true ->
        exists uid,
          Engine.matched_user_id
            (Engine.reconcile name_tokens partial_name users tx) = Some uid).
Proof.
  intros H.
  destruct (H noTokens noPartial [ada; twin] (payment " A@X.com " 20) ada
              (or_introl eq_refl) eq_refl) as (uid & E).
  vm_compute in E. discriminate.
Qed.

(** C3, amended: a transaction with an exact (case and white space
    normalised) email match to a user who, among the users with that
    address, is the only one or strictly the most recently active, has
    [matched_user_id] set to that user and its amount counts in that
    user's total; a transaction with no match at any tier has no
    [matched_user_id], and its amount counts in the gross revenue total
    and in no user's total. *)
Theorem email_match_and_no_match
    (name_tokens : string -> option (list string))
    (partial_name : Engine.TransactionRecord -> Engine.UserRecord -> bool)
    (users : list Engine.UserRecord) (txs : list Engine.TransactionRecord)
    (tx : Engine.TransactionRecord) :
  let tx' := Engine.reconcile name_tokens partial_name users tx in
  Engine.gross_revenue (txs ++ [tx])
  = (Engine.gross_revenue txs + Engine.amount tx)%Q
  /\ (forall u,
        List.NoDup users -> In u users ->
        Engine.email_match tx u = true ->
        (forall v, In v users -> Engine.email_match tx v = true -> v <> u ->
                   Engine.at_least_as_recent v u = false) ->
        Engine.matched_user_id tx' = Some (Engine.user_id u)
        /\ Engine.per_user_total name_tokens partial_name users (txs ++ [tx])
             (Engine.user_id u)
           = (Engine.per_user_total name_tokens partial_name users txs
                (Engine.user_id u)
              + Engine.amount tx)%Q)
  /\ ((forall u, In u users ->
                 Engine.email_match tx u = false
                 /\ Engine.name_match name_tokens tx u = false
                 /\ partial_name tx u = false) ->
      Engine.matched_user_id tx' = None
      /\ forall uid,
           (Engine.per_user_total name_tokens partial_name users (txs ++ [tx]) uid
            == Engine.per_user_total name_tokens partial_name users txs uid)%Q).
Proof.
  intros tx'. split; [apply gross_revenue_snoc|]. split.
  - intros u Hnd Hin Hmail Hbest.
    assert (E : Engine.matched_user_id tx' = Some (Engine.user_id u)).
    { subst tx'. simpl. unfold Engine.match_outcome.
      rewrite (resolve_winner Engine.Certain _ u); [reflexivity | | |].
      - now apply NoDup_filter_list.
      - apply filter_In. now split.
      - intros v Hv Hne. apply filter_In in Hv as [Hv Hm]. now apply Hbest. }
    split; [exact E|].
    rewrite per_user_total_snoc. fold tx'. unfold Engine.share.
    rewrite E, Z.eqb_refl. reflexivity.
  - intros Hnone.
    assert (E : Engine.matched_user_id tx' = None).
    { subst tx'. simpl. unfold Engine.match_outcome.
      rewrite !filter_none; [reflexivity | | |]; intros u Hu;
        now destruct (Hnone u Hu) as (? & ? & ?). }
    split; [exact E|]. intros uid.
    rewrite per_user_total_snoc. fold tx'. unfold Engine.share. rewrite E.
    ring.
Qed.

Lemma email_match_and_no_match_witness :
  Engine.matched_user_id
    (Engine.reconcile noTokens noPartial [ada; bob] (payment " A@X.com " 20))
  = Some 1
  /\ Engine.matched_user_id
       (Engine.reconcile noTokens noPartial [ada; bob] (payment "c@y.com" 15))
     = None.
Proof.
  split.
  - pose proof (email_match_and_no_match noTokens noPartial [ada; bob] []
                  (payment " A@X.com " 20)) as H.
    destruct H as (_ & H & _).
    apply (H ada).
    + repeat constructor; simpl; intuition discriminate.
    + left. reflexivity.
    + reflexivity.
    + intros v [<- | [<- | []]] Hm Hne; [now elim Hne | discriminate].
  - pose proof (email_match_and_no_match noTokens noPartial [ada; bob] []
                  (payment "c@y.com" 15)) as H.
    destruct H as (_ & _ & H).
    apply H.
    intros u [<- | [<- | []]]; repeat split.
Defined.

(** ** Cohort retention *)



(** Later on, only the strict definition counts: a member without any
    recorded activity is not active, and the same cohort is retained in
    full at offset 0 and not at all three months later. *)
Example retention_later :
  (Engine.retention [eve] jan2024 0 == 1)%Q
  /\ (Engine.retention [eve] jan2024 3 == 0)%Q.
Proof. split; reflexivity. Qed.



(** * Further properties of the components *)

(** ** Order of the sorted lists *)

Section Descending.

Local Open Scope Q_scope.

Lemma insert_descending x l :
  descending l -> descending (JS.insert byRevenueDesc x l).
Proof.
  unfold descending. induction l as [|y l IH]; intros Hs; simpl.
  - constructor; constructor.
  - apply StronglySorted_inv in Hs as [Hl Hy].
    unfold byRevenueDesc at 1.
    destruct (Qle_bool (TotalPayments y - TotalPayments x) 0) eqn:E.
    + apply Qle_bool_iff in E.
      assert (Hyx : TotalPayments y <= TotalPayments x) by lra.
      constructor; [constructor; assumption|].
      constructor; [exact Hyx|].
      eapply List.Forall_impl; [|exact Hy]. simpl. intros b Hb. lra.
    + assert (Hxy : TotalPayments x <= TotalPayments y).
      { apply Qlt_le_weak, Qnot_le_lt. intros H.
        assert (H' : TotalPayments y - TotalPayments x <= 0) by lra.
        apply Qle_bool_iff in H'. congruence. }
      constructor; [apply IH, Hl|].
      eapply Permutation_Forall; [symmetry; apply insert_perm|].
      constructor; assumption.
Qed.

Lemma sort_descending l : descending (JS.sort byRevenueDesc l).
Proof.
  induction l as [|x l IH]; simpl; [constructor|].
  apply insert_descending, IH.
Qed.

Lemma descending_app l1 l2 :
  descending (l1 ++ l2) ->
  descending l1 /\ descending l2
  /\ forall a b, In a l1 -> In b l2 -> TotalPayments b <= TotalPayments a.
Proof.
  unfold descending. induction l1 as [|x l1 IH]; simpl; intros Hs.
  - split; [constructor|]. split; [assumption | contradiction].
  - apply StronglySorted_inv in Hs as [Hl Hx].
    destruct (IH Hl) as (H1 & H2 & H12).
    apply List.Forall_app in Hx as [Hx1 Hx2].
    split; [constructor; assumption|]. split; [assumption|].
    intros a b [<- | Ha] Hb; [|now apply H12].
    rewrite List.Forall_forall in Hx2. now apply Hx2.
Qed.

Lemma descending_firstn n l : descending l -> descending (firstn n l).
Proof.
  intros H. rewrite <- (firstn_skipn n l) in H.
  now apply descending_app in H.
Qed.

Lemma descending_filter (p : User -> bool) l :
  descending l -> descending (List.filter p l).
Proof.
  unfold descending. induction 1 as [|x l Hl IH Hx]; simpl; [constructor|].
  destruct (p x); [|exact IH].
  constructor; [exact IH|].
  rewrite List.Forall_forall in *. intros b Hb.
  apply filter_In in Hb as [Hb _]. now apply Hx.
Qed.

End Descending.

(** X1: the top revenue users of [RevenueView] are the first ten users (all
    of them when there are fewer) of [data] by revenue: the list is in
    descending order of [TotalPayments], and together with the users left
    out, none of whom has more revenue than any listed one, it is a
    rearrangement of [data]. *)
Theorem top_revenue_users (UTC : Z -> Z) (today : Z) (d : list User) :
  exists f s',
    Revenue.RevenueView UTC today (initial d) = Some (f, s')
    /\ length (Revenue.shownTopRevenueUsers f) = Nat.min 10 (length d)
    /\ descending (Revenue.shownTopRevenueUsers f)
    /\ exists rest,
         Permutation (Revenue.shownTopRevenueUsers f ++ rest) d
         /\ forall a b, In a (Revenue.shownTopRevenueUsers f) -> In b rest ->
                        (TotalPayments b <= TotalPayments a)%Q.
Proof.
  destruct (RevenueView_run UTC today (initial d) d (initial_data d))
    as (s' & Hrun & _).
  exists (Closed.figures UTC today d), s'. split; [exact Hrun|].
  unfold Closed.figures. cbn [Revenue.shownTopRevenueUsers].
  pose proof (sort_descending d) as Hs.
  rewrite <- (firstn_skipn 10 (JS.sort byRevenueDesc d)) in Hs.
  apply descending_app in Hs as (H1 & _ & H12).
  split.
  - rewrite List.length_firstn. f_equal.
    apply Permutation_length, sort_perm.
  - split; [exact H1|]. exists (skipn 10 (JS.sort byRevenueDesc d)).
    split; [|exact H12]. rewrite firstn_skipn. apply sort_perm.
Qed.

(** X2: the win-back list has one row per candidate of [data] and is in
    descending order of [TotalPayments]. *)
Theorem winback_rows_descending (d : list User) :
  exists rows s',
    WinBack.WinBackView (initial d) = Some (rows, s')
    /\ length rows = length (List.filter WinBack.isCandidate d)
    /\ descending (map WinBack.user rows).
Proof.
  destruct (WinBackView_run (initial d) d (initial_data d)) as (s' & Hrun & _).
  exists (Closed.rows d), s'. split; [exact Hrun|]. split.
  - unfold Closed.rows. rewrite List.length_map.
    apply Permutation_length, sort_perm.
  - rewrite rows_users. apply sort_descending.
Qed.

(** ** The bars of the Pareto chart *)

Lemma in_firstn {A} (n : nat) (l : list A) (x : A) :
  In x (firstn n l) -> In x l.
Proof.
  intros H. rewrite <- (firstn_skipn n l). apply in_or_app. now left.
Qed.

Section Bars.

Local Open Scope Q_scope.

Lemma mapEntries_revenue total us : forall c,
  map Pareto.revenue (Pareto.mapEntries total us c) = map TotalPayments us.
Proof.
  induction us as [|u us IH]; intros c; simpl; [reflexivity|].
  now rewrite IH.
Qed.

Lemma mapEntries_length total us c :
  length (Pareto.mapEntries total us c) = length us.
Proof.
  rewrite <- (List.length_map Pareto.revenue), mapEntries_revenue.
  apply List.length_map.
Qed.

Lemma descending_payments us :
  descending us ->
  StronglySorted (fun a b => b <= a) (map TotalPayments us).
Proof.
  unfold descending. induction 1 as [|x l Hl IH Hx]; simpl; constructor.
  - exact IH.
  - rewrite List.Forall_forall in *. intros q Hq.
    apply in_map_iff in Hq as (b & <- & Hb). now apply Hx.
Qed.

Lemma paying_iff u : Closed.paying u = true <-> 0 < TotalPayments u.
Proof. apply Qgt_bool_iff. Qed.

(** The users the chart is drawn from. *)
Lemma chart_users_paying d u :
  In u (List.filter Closed.paying (JS.sort byRevenueDesc d))
  <-> In u d /\ 0 < TotalPayments u.
Proof. now rewrite filter_In, sort_In, paying_iff. Qed.

Lemma chart_users_descending d :
  descending (List.filter Closed.paying (JS.sort byRevenueDesc d)).
Proof. apply descending_filter, sort_descending. Qed.

End Bars.

(** X3: the chart has one bar per paying user of [data], up to thirty; the
    bars are in descending order of revenue and every bar is strictly
    positive. *)
Theorem pareto_bars (d : list User) :
  exists es s',
    Pareto.ParetoChart (initial d) = Some (es, s')
    /\ length es
       = Nat.min 30
           (length (List.filter (fun u => JS.Qgt_bool (TotalPayments u) 0) d))
    /\ StronglySorted (fun a b => (b <= a)%Q) (map Pareto.revenue es)
    /\ forall e, In e es -> (0 < Pareto.revenue e)%Q.
Proof.
  destruct (ParetoChart_run (initial d) d (initial_data d)) as (s' & Hrun & _).
  exists (Closed.entries d), s'. split; [exact Hrun|].
  unfold Closed.entries.
  set (us := List.filter Closed.paying (JS.sort byRevenueDesc d)).
  split; [|split].
  - rewrite mapEntries_length, List.length_firstn. f_equal.
    unfold us. apply filter_length_perm, sort_perm.
  - rewrite mapEntries_revenue.
    apply descending_payments, descending_firstn, chart_users_descending.
  - intros e He.
    apply (in_map Pareto.revenue) in He. rewrite mapEntries_revenue in He.
    apply in_map_iff in He as (u & <- & Hu).
    apply in_firstn in Hu. now apply chart_users_paying in Hu.
Qed.

(** X4: the first bar of the chart is the largest payment of [data]: no
    user of [data] has more revenue. *)
Theorem pareto_first_bar_is_largest (d : list User) :
  exists es s',
    Pareto.ParetoChart (initial d) = Some (es, s')
    /\ forall e es', es = e :: es' ->
                     forall u, In u d ->
                               (TotalPayments u <= Pareto.revenue e)%Q.
Proof.
  destruct (ParetoChart_run (initial d) d (initial_data d)) as (s' & Hrun & _).
  exists (Closed.entries d), s'. split; [exact Hrun|].
  unfold Closed.entries.
  pose proof (chart_users_descending d) as Hdesc.
  pose proof (chart_users_paying d) as Hpay.
  destruct (List.filter Closed.paying (JS.sort byRevenueDesc d)) as [|x us];
    [intros e es'; discriminate|].
  intros e es' E u Hu. simpl in E. injection E as <- _. simpl.
  assert (Hx : (0 < TotalPayments x)%Q) by (apply Hpay; now left).
  destruct (Qlt_le_dec 0 (TotalPayments u)) as [Hpos | Hnon].
  - assert (Hin : In u (x :: us)) by now apply Hpay.
    destruct Hin as [<- | Hin]; [apply Qle_refl|].
    apply StronglySorted_inv in Hdesc as [_ Hall].
    rewrite List.Forall_forall in Hall. now apply Hall.
  - apply Qlt_le_weak. eapply Qle_lt_trans; eassumption.
Qed.

Lemma pareto_first_bar_is_largest_witness :
  exists es s',
    Pareto.ParetoChart (initial [ann; bo; cy]) = Some (es, s')
    /\ exists e es', es = e :: es'
                     /\ forall u, In u [ann; bo; cy] ->
                                  (TotalPayments u <= Pareto.revenue e)%Q.
Proof.
  destruct (pareto_first_bar_is_largest [ann; bo; cy])
    as (es & s' & Hrun & Hfirst).
  exists es, s'. split; [exact Hrun|].
  destruct (ParetoChart_run (initial [ann; bo; cy]) [ann; bo; cy]
              (initial_data _)) as (s'' & Hrun' & _).
  rewrite Hrun in Hrun'. injection Hrun' as E _.
  destruct es as [|e es']; [discriminate E|].
  exists e, es'. split; [reflexivity|]. exact (Hfirst e es' eq_refl).
Defined.


(** ** The running percentages *)

Section Shares.

Local Open Scope Q_scope.

(** The entry at a given place carries the running sum up to that place. *)
Lemma mapEntries_at total us : forall c es1 e es2,
  Pareto.mapEntries total us c = (es1 ++ e :: es2)%list ->
  Pareto.cumulativePercentage e
  = fold_left (fun sum u => sum + TotalPayments u)
      (firstn (S (length es1)) us) c / total * 100
  /\ map Pareto.revenue (es1 ++ [e])
     = map TotalPayments (firstn (S (length es1)) us).
Proof.
  induction us as [|u us IH]; intros c es1 e es2 H; simpl in H.
  - now destruct es1.
  - destruct es1 as [|e1 es1]; simpl in H.
    + injection H as <- _. simpl. split; reflexivity.
    + injection H as <- Htail.
      destruct (IH _ _ _ _ Htail) as [Hcp Hrev].
      cbn [length firstn fold_left app map]. rewrite Hcp, Hrev. split; reflexivity.
Qed.

Lemma sumQ_payments us : sumQ (map TotalPayments us) = sumPayments us.
Proof.
  unfold sumQ, sumPayments. generalize 0 as a.
  induction us as [|u us IH]; intros a; simpl; [reflexivity | apply IH].
Qed.

(** Users who paid nothing do not count in a sum of non-negative
    payments. *)
Lemma sumPayments_paying d :
  (forall u, In u d -> 0 <= TotalPayments u) ->
  sumPayments (List.filter Closed.paying d) == sumPayments d.
Proof.
  induction d as [|u d IH]; intros Hnn; [reflexivity|]. simpl.
  assert (Hu : 0 <= TotalPayments u) by (apply Hnn; now left).
  assert (IH' : sumPayments (List.filter Closed.paying d) == sumPayments d)
    by (apply IH; intros; apply Hnn; now right).
  destruct (Closed.paying u) eqn:E; rewrite !sumPayments_cons, ?IH';
    [reflexivity|].
  assert (Hz : ~ 0 < TotalPayments u).
  { intros H. apply paying_iff in H. congruence. }
  apply Qnot_lt_le in Hz. lra.
Qed.

End Shares.

(** X5: the percentage of a bar is the running sum of the bars up to and
    including it, divided by the sum of all the strictly positive payments
    of [data] (shown or not, added in chart order) and multiplied by 100. *)
Theorem pareto_running_share (d : list User) :
  exists es s',
    Pareto.ParetoChart (initial d) = Some (es, s')
    /\ forall es1 e es2,
         es = (es1 ++ e :: es2)%list ->
         Pareto.cumulativePercentage e
         = (sumQ (map Pareto.revenue (es1 ++ [e]))
            / sumPayments
                (List.filter (fun u => JS.Qgt_bool (TotalPayments u) 0)
                   (JS.sort byRevenueDesc d))
            * 100)%Q.
Proof.
  destruct (ParetoChart_run (initial d) d (initial_data d)) as (s' & Hrun & _).
  exists (Closed.entries d), s'. split; [exact Hrun|].
  intros es1 e es2 Hes. unfold Closed.entries in Hes.
  destruct (mapEntries_at _ _ _ _ _ _ Hes) as [Hcp Hrev].
  rewrite Hcp, Hrev, sumQ_payments. reflexivity.
Qed.

Lemma pareto_running_share_witness :
  exists es s',
    Pareto.ParetoChart (initial [ann; bo; cy]) = Some (es, s')
    /\ exists e1 e2,
         es = [e1; e2]
         /\ Pareto.cumulativePercentage e2
            = (sumQ [Pareto.revenue e1; Pareto.revenue e2]
               / sumPayments [bo; ann] * 100)%Q.
Proof.
  destruct (pareto_running_share [ann; bo; cy]) as (es & s' & Hrun & Hshare).
  exists es, s'. split; [exact Hrun|].
  destruct (ParetoChart_run (initial [ann; bo; cy]) [ann; bo; cy]
              (initial_data _)) as (s'' & Hrun' & _).
  rewrite Hrun in Hrun'. injection Hrun' as E _.
  destruct es as [|e1 [|e2 [|e3 es]]]; try discriminate E.
  exists e1, e2. split; [reflexivity|].
  exact (Hshare [e1] e2 [] eq_refl).
Defined.

(** ** The names under the bars *)

Lemma split_first (sep : ascii) (s : string) :
  let w := nth 0 (JS.split sep s) "" in
  (s = w \/ exists rest, s = (w ++ String sep rest)%string)
  /\ forall c, In c (list_ascii_of_string w) -> c <> sep.
Proof.
  induction s as [|c s IH]; simpl.
  - split; [left; reflexivity | intros c []].
  - destruct (Ascii.eqb_spec c sep) as [->|Hne]; simpl.
    + split; [right; now exists s | contradiction].
    + destruct (JS.split sep s) as [|p ps]; simpl in *.
      * destruct IH as [[-> | (rest & ->)] _].
        -- split; [now left|]. intros c' [<- | []]. exact Hne.
        -- split; [right; now exists rest|]. intros c' [<- | []]. exact Hne.
      * destruct IH as [[-> | (rest & ->)] Hchars].
        -- split; [now left|]. intros c' [<- | Hc]; [exact Hne | now apply Hchars].
        -- split; [right; now exists rest|].
           intros c' [<- | Hc]; [exact Hne | now apply Hchars].
Qed.

Lemma mapEntries_source total us : forall c e,
  In e (Pareto.mapEntries total us c) ->
  exists u, In u us
            /\ Pareto.full_name e = Fullname u
            /\ Pareto.revenue e = TotalPayments u
            /\ Pareto.name e = nth 0 (JS.split " " (Fullname u)) "".
Proof.
  induction us as [|u us IH]; intros c e; simpl; [contradiction|].
  intros [<- | He].
  - exists u. simpl. auto.
  - destruct (IH _ _ He) as (v & Hv & H). exists v. auto.
Qed.

(** X7: every bar stands for a paying user of [data] and is labelled with
    the first word of their full name: the label has no space in it, and
    the full name is the label, or the label followed by a space and the
    rest of the name. *)
Theorem pareto_labels (d : list User) :
  exists es s',
    Pareto.ParetoChart (initial d) = Some (es, s')
    /\ forall e, In e es ->
         (exists u, In u d
                    /\ (0 < TotalPayments u)%Q
                    /\ Pareto.full_name e = Fullname u
                    /\ Pareto.revenue e = TotalPayments u)
         /\ (Pareto.full_name e = Pareto.name e
             \/ exists rest,
                  Pareto.full_name e = (Pareto.name e ++ String " " rest)%string)
         /\ forall c, In c (list_ascii_of_string (Pareto.name e)) ->
                      c <> " "%char.
Proof.
  destruct (ParetoChart_run (initial d) d (initial_data d)) as (s' & Hrun & _).
  exists (Closed.entries d), s'. split; [exact Hrun|].
  intros e He. unfold Closed.entries in He.
  apply mapEntries_source in He as (u & Hu & Hfull & Hrev & Hname).
  apply in_firstn, chart_users_paying in Hu as [Hu Hpos].
  destruct (split_first " " (Fullname u)) as [Hsplit Hchars].
  rewrite Hfull, Hname. split; [|split; assumption].
  exists u. auto.
Qed.

(** ** The revenue figures *)

Section Figures.

Local Open Scope Q_scope.

Lemma sumPayments_filter_le (p : User -> bool) d :
  (forall u, In u d -> 0 <= TotalPayments u) ->
  sumPayments (List.filter p d) <= sumPayments d.
Proof.
  induction d as [|u d IH]; intros Hnn; [apply Qle_refl|]. simpl.
  assert (Hu : 0 <= TotalPayments u) by (apply Hnn; now left).
  assert (IH' : sumPayments (List.filter p d) <= sumPayments d)
    by (apply IH; intros; apply Hnn; now right).
  destruct (p u); rewrite !sumPayments_cons; lra.
Qed.

End Figures.

(** X9: when no payment is negative, the potential-churn figure never
    exceeds the total revenue figure. *)
Theorem churn_within_total (UTC : Z -> Z) (today : Z) (d : list User) :
  (forall u, In u d -> (0 <= TotalPayments u)%Q) ->
  exists f s',
    Revenue.RevenueView UTC today (initial d) = Some (f, s')
    /\ (Revenue.shownPotentialChurn f <= Revenue.shownTotalARR f)%Q.
Proof.
  intros Hnn.
  destruct (RevenueView_run UTC today (initial d) d (initial_data d))
    as (s' & Hrun & _).
  exists (Closed.figures UTC today d), s'. split; [exact Hrun|].
  simpl. now apply sumPayments_filter_le.
Qed.

Lemma churn_within_total_witness :
  (forall u, In u [ann; bo; cy] -> (0 <= TotalPayments u)%Q)
  /\ exists f s',
       Revenue.RevenueView utc nov2026 (initial [ann; bo; cy]) = Some (f, s')
       /\ (Revenue.shownPotentialChurn f <= Revenue.shownTotalARR f)%Q.
Proof.
  assert (H : forall u, In u [ann; bo; cy] -> (0 <= TotalPayments u)%Q).
  { intros u [<- | [<- | [<- | []]]]; discriminate. }
  split; [exact H|].
  exact (churn_within_total utc nov2026 [ann; bo; cy] H).
Defined.

(** X10: when no payment is negative, the ARPU figure is strictly positive
    exactly when some user of [data] has paid, and 0 otherwise. *)
Theorem arpu_positive_iff_payer (UTC : Z -> Z) (today : Z) (d : list User) :
  (forall u, In u d -> (0 <= TotalPayments u)%Q) ->
  exists f s',
    Revenue.RevenueView UTC today (initial d) = Some (f, s')
    /\ ((0 < Revenue.shownArpu f)%Q
        <-> exists u, In u d /\ (0 < TotalPayments u)%Q)
    /\ ((forall u, In u d -> ~ (0 < TotalPayments u)%Q) ->
        Revenue.shownArpu f = 0%Q).
Proof.
  intros Hnn.
  destruct (RevenueView_run UTC today (initial d) d (initial_data d))
    as (s' & Hrun & _).
  exists (Closed.figures UTC today d), s'. split; [exact Hrun|].
  unfold Closed.figures. cbn [Revenue.shownArpu].
  destruct (List.filter Closed.paying d) as [|x ps] eqn:Ep.
  - simpl. split.
    + split; [discriminate|]. intros (u & Hu & Hpos).
      assert (Hin : In u (List.filter Closed.paying d))
        by (apply filter_In; split; [assumption | now apply paying_iff]).
      rewrite Ep in Hin. contradiction.
    + reflexivity.
  - assert (Hx : In x d /\ (0 < TotalPayments x)%Q).
    { rewrite <- paying_iff, <- filter_In, Ep. now left. }
    assert (Hn : (0 < Z.of_nat (length (x :: ps)))) by (simpl; lia).
    destruct (0 <? Z.of_nat (length (x :: ps))) eqn:En;
      [|apply Z.ltb_ge in En; lia].
    split.
    + split; [intros _; exists x; exact Hx|]. intros _.
      assert (Hsum : (0 < sumPayments d)%Q).
      { rewrite <- (sumPayments_paying d Hnn), Ep.
        apply sumPayments_pos. intros u Hu. rewrite <- Ep in Hu.
        apply filter_In in Hu as [_ Hu]. now apply paying_iff. }
      apply Qlt_shift_div_l; [|now rewrite Qmult_0_l].
      unfold Qlt. simpl. lia.
    + intros Hnone. destruct Hx as [Hx Hpos]. now elim (Hnone x Hx).
Qed.

Lemma arpu_positive_iff_payer_witness :
  (forall u, In u [ann; bo; cy] -> (0 <= TotalPayments u)%Q)
  /\ exists f s',
       Revenue.RevenueView utc nov2026 (initial [ann; bo; cy]) = Some (f, s')
       /\ (0 < Revenue.shownArpu f)%Q.
Proof.
  assert (H : forall u, In u [ann; bo; cy] -> (0 <= TotalPayments u)%Q).
  { intros u [<- | [<- | [<- | []]]]; discriminate. }
  split; [exact H|].
  destruct (arpu_positive_iff_payer utc nov2026 [ann; bo; cy] H)
    as (f & s' & Hrun & Hiff & _).
  exists f, s'. split; [exact Hrun|].
  apply Hiff. exists ann. split; [now left | reflexivity].
Defined.

(** ** The expiration check over time *)

(** X11: once a date counts as expired it stays so: if [isExpired] holds
    at some instant, it holds at every later instant. *)
Theorem isExpired_stays_expired (UTC : Z -> Z) (today later : Z) (s : string) :
  today <= later ->
  Revenue.isExpired UTC today s = true ->
  Revenue.isExpired UTC later s = true.
Proof.
  intros Hle H. apply isExpired_true_iff in H as (Hne & p0 & p1 & p2 & t & Hs & Ht & Hlt).
  apply isExpired_true_iff. split; [exact Hne|].
  exists p0, p1, p2, t. repeat split; try assumption. lia.
Qed.

Lemma isExpired_stays_expired_witness :
  nov2026 <= nov2026 + 86400000
  /\ Revenue.isExpired utc nov2026 "01/11/2026" = true
  /\ Revenue.isExpired utc (nov2026 + 86400000) "01/11/2026" = true.
Proof.
  assert (H1 : nov2026 <= nov2026 + 86400000) by (unfold nov2026; lia).
  assert (H2 : Revenue.isExpired utc nov2026 "01/11/2026" = true) by reflexivity.
  split; [exact H1|]. split; [exact H2|].
  exact (isExpired_stays_expired utc nov2026 (nov2026 + 86400000) "01/11/2026" H1 H2).
Defined.

(** ** The table bodies *)

Section TableBodies.

Context {A : Type}.

Lemma body_item (rows : list A) (a : A) :
  In (Tables.ItemLine a) (Tables.body rows) <-> In a rows.
Proof.
  unfold Tables.body. rewrite in_app_iff, in_map_iff. split.
  - intros [(b & E & Hb) | H]; [now injection E as <- |].
    destruct (length rows =? 0)%nat; [destruct H as [H | []]; discriminate H | contradiction].
  - intros H. left. now exists a.
Qed.

Lemma body_placeholder (rows : list A) :
  In Tables.Placeholder (Tables.body rows) <-> rows = [].
Proof.
  unfold Tables.body. rewrite in_app_iff, in_map_iff. split.
  - intros [(b & E & _) | H]; [discriminate E|].
    destruct rows; [reflexivity | contradiction].
  - intros ->. right. now left.
Qed.

Lemma body_length (rows : list A) :
  length (Tables.body rows) = Nat.max 1 (length rows).
Proof.
  unfold Tables.body. rewrite List.length_app, List.length_map.
  destruct rows; simpl; lia.
Qed.

End TableBodies.

Lemma zombieTable_run UTC today s d :
  s !! data = Some d ->
  exists s',
    Tables.zombieTable UTC today s
    = Some (Tables.body (List.filter (Closed.isZombie UTC today) d), s').
Proof.
  intros Hd.
  destruct (RevenueView_run UTC today s d Hd) as (s' & Hrun & _).
  unfold Revenue.RevenueView, bind in Hrun. unfold Tables.zombieTable, bind.
  destruct (Revenue.useMemo UTC today s) as [[m s1]|]; [|discriminate].
  unfold get in *.
  destruct (s1 !! Revenue.zombies m) as [zs|]; [|discriminate].
  destruct (s1 !! Revenue.topRevenueUsers m) as [ts|]; [|discriminate].
  unfold ret in *.
  apply (f_equal (option_map (fun out => Revenue.shownZombies (fst out)))) in Hrun.
  simpl in Hrun. injection Hrun as ->.
  now exists s1.
Qed.

(** X12: the zombie alert table is never empty: it has one line per user
    of [data] with [Status] ["ACTIVE"] and an expired date, and the line
    "No zombie users found" exactly when there is no such user. *)
Theorem zombie_table_lines (UTC : Z -> Z) (today : Z) (d : list User) :
  exists t s',
    Tables.zombieTable UTC today (initial d) = Some (t, s')
    /\ length t
       = Nat.max 1
           (length (List.filter
                      (fun u => (Status u =? "ACTIVE")%string
                                && Revenue.isExpired UTC today (ExpirationDate u))
                      d))
    /\ (forall u,
          In (Tables.ItemLine u) t
          <-> In u d /\ Status u = "ACTIVE"
              /\ Revenue.isExpired UTC today (ExpirationDate u) = true)
    /\ (In Tables.Placeholder t
        <-> forall u, In u d ->
                      ~ (Status u = "ACTIVE"
                         /\ Revenue.isExpired UTC today (ExpirationDate u) = true)).
Proof.
  destruct (zombieTable_run UTC today (initial d) d (initial_data d))
    as (s' & Hrun).
  eexists _, s'. split; [exact Hrun|].
  split; [apply body_length|]. split.
  - intros u. now rewrite body_item, filter_In, isZombie_iff.
  - rewrite body_placeholder. split.
    + intros E u Hu Hz. apply isZombie_iff in Hz.
      assert (Hin : In u (List.filter (Closed.isZombie UTC today) d))
        by (apply filter_In; now split).
      rewrite E in Hin. contradiction.
    + intros Hnone. apply filter_none. intros u Hu.
      apply not_true_is_false. intros Hz. apply isZombie_iff in Hz.
      exact (Hnone u Hu Hz).
Qed.

Lemma winBackTable_run s d :
  s !! data = Some d ->
  exists s', Tables.winBackTable s = Some (Tables.body (Closed.rows d), s').
Proof.
  intros Hd. destruct (WinBackView_run s d Hd) as (s' & Hrun & _).
  exists s'. unfold Tables.winBackTable. now erewrite bind_at by exact Hrun.
Qed.

(** X13: the candidates table is never empty: it has one line per row of
    the win-back list, and the line "No win-back opportunities found"
    exactly when no user of [data] is a Beginner with strictly positive
    [TotalPayments]. *)
Theorem winback_table_lines (d : list User) :
  exists t s',
    Tables.winBackTable (initial d) = Some (t, s')
    /\ length t = Nat.max 1 (length (List.filter WinBack.isCandidate d))
    /\ (forall u,
          In (Tables.ItemLine (WinBack.row u)) t
          <-> In u d /\ JS.toLowerCase (LicenseType u) = "beginner"
              /\ (0 < TotalPayments u)%Q)
    /\ (In Tables.Placeholder t
        <-> forall u, In u d ->
                      ~ (JS.toLowerCase (LicenseType u) = "beginner"
                         /\ (0 < TotalPayments u)%Q)).
Proof.
  destruct (winBackTable_run (initial d) d (initial_data d)) as (s' & Hrun).
  eexists _, s'. split; [exact Hrun|].
  assert (Hmem : forall u, In u (JS.sort byRevenueDesc (List.filter WinBack.isCandidate d))
                           <-> In u d /\ JS.toLowerCase (LicenseType u) = "beginner"
                               /\ (0 < TotalPayments u)%Q).
  { intros u. now rewrite sort_In, filter_In, isCandidate_iff. }
  split; [|split].
  - rewrite body_length. unfold Closed.rows. rewrite List.length_map.
    f_equal. apply Permutation_length, sort_perm.
  - intros u. rewrite body_item, <- Hmem. unfold Closed.rows.
    rewrite in_map_iff. split.
    + intros (v & E & Hv).
      assert (E' : v = u) by (apply (f_equal WinBack.user) in E; exact E).
      now subst v.
    + intros Hu. now exists u.
  - rewrite body_placeholder. unfold Closed.rows. split.
    + intros E u Hu Hc.
      assert (Hin : In u (JS.sort byRevenueDesc (List.filter WinBack.isCandidate d)))
        by (apply Hmem; tauto).
      apply (in_map WinBack.row) in Hin. rewrite E in Hin. contradiction.
    + intros Hnone.
      destruct (JS.sort byRevenueDesc (List.filter WinBack.isCandidate d))
        as [|x l] eqn:E; [reflexivity|]. exfalso.
      destruct (proj1 (Hmem x) (or_introl eq_refl)) as (Hx & Hc).
      exact (Hnone x Hx Hc).
Qed.

(** ** What rendering leaves alone *)

Section Frame.

Implicit Types (s : store) (a r : ref) (xs ys : list User).

Lemma keeps_refl s : keeps s s.
Proof. intros r xs H. exact H. Qed.

(** Writing to an array that the first store did not hold. *)
Lemma keeps_insert (s0 s : store) r ys :
  keeps s0 s -> s0 !! r = None -> keeps s0 (<[r := ys]> s).
Proof.
  intros Hk Hr a xs Ha. rewrite lookup_insert_ne; [now apply Hk|].
  intros ->. pose proof (eq_trans (eq_sym Hr) Ha) as C. discriminate C.
Qed.

Lemma keeps_unused (s0 s : store) r : keeps s0 s -> s !! r = None -> s0 !! r = None.
Proof.
  intros Hk Hr. destruct (s0 !! r) as [xs|] eqn:E; [|reflexivity].
  apply Hk in E. pose proof (eq_trans (eq_sym Hr) E) as C. discriminate C.
Qed.

Lemma bind_inv {A B} (c : M A) (k : A -> M B) s b (s' : store) :
  bind c k s = Some (b, s') ->
  exists x s1, c s = Some (x, s1) /\ k x s1 = Some (b, s').
Proof.
  unfold bind. destruct (c s) as [[x s1]|]; [|discriminate].
  intros H. now exists x, s1.
Qed.

Lemma get_inv s r xs (s' : store) : get r s = Some (xs, s') -> s' = s.
Proof.
  unfold get. destruct (s !! r); [|discriminate]. now intros [= _ <-].
Qed.

Lemma alloc_keeps (s0 s : store) ys r (s' : store) :
  keeps s0 s -> alloc ys s = Some (r, s') -> keeps s0 s' /\ s0 !! r = None.
Proof.
  unfold alloc. intros Hk [= <- <-].
  assert (Hr : s0 !! fresh (dom s) = None)
    by (eapply keeps_unused; [exact Hk | apply fresh_unused]).
  split; [now apply keeps_insert | exact Hr].
Qed.

Lemma set_keeps (s0 s : store) r ys u (s' : store) :
  keeps s0 s -> s0 !! r = None -> Store.set r ys s = Some (u, s') ->
  keeps s0 s'.
Proof.
  unfold Store.set. intros Hk Hr. destruct (s !! r); [|discriminate].
  intros [= _ <-]. now apply keeps_insert.
Qed.

(** The three operations that make a fresh array. *)
Lemma fresh_array_keeps (c : list User -> list User) (s0 s : store) a r
    (s' : store) :
  keeps s0 s ->
  bind (get a) (fun xs => alloc (c xs)) s = Some (r, s') ->
  keeps s0 s' /\ s0 !! r = None.
Proof.
  intros Hk H. apply bind_inv in H as (xs & s1 & Hg & Ha).
  apply get_inv in Hg as ->. eapply alloc_keeps; eassumption.
Qed.

Lemma sort_keeps (s0 s : store) a cmp r (s' : store) :
  keeps s0 s -> s0 !! a = None -> Store.sort a cmp s = Some (r, s') ->
  keeps s0 s' /\ r = a.
Proof.
  intros Hk Ha H. unfold Store.sort in H.
  apply bind_inv in H as (xs & s1 & Hg & H). apply get_inv in Hg as ->.
  apply bind_inv in H as (u & s2 & Hs & H). injection H as <- <-.
  split; [eapply set_keeps; eassumption | reflexivity].
Qed.

Lemma push_keeps (s0 s : store) a x u (s' : store) :
  keeps s0 s -> s0 !! a = None -> push a x s = Some (u, s') -> keeps s0 s'.
Proof.
  intros Hk Ha H. unfold push in H.
  apply bind_inv in H as (xs & s1 & Hg & H). apply get_inv in Hg as ->.
  eapply set_keeps; eassumption.
Qed.

Lemma callback_keeps UTC today (s0 : store) z x l l' s (s' : store) :
  keeps s0 s -> s0 !! z = None ->
  Revenue.callback UTC today z x l s = Some (l', s') -> keeps s0 s'.
Proof.
  intros Hk Hz. unfold Revenue.callback.
  destruct (_ && _).
  - intros H. apply bind_inv in H as (u & s1 & Hp & H).
    injection H as _ <-. eapply push_keeps; eassumption.
  - now intros [= _ <-].
Qed.

Lemma forEach_keeps UTC today (s0 : store) z xs : forall l l' s (s' : store),
  keeps s0 s -> s0 !! z = None ->
  forEachFrom xs (Revenue.callback UTC today z) l s = Some (l', s') ->
  keeps s0 s'.
Proof.
  induction xs as [|x xs IH]; intros l l' s s' Hk Hz H; simpl in H.
  - now injection H as _ <-.
  - apply bind_inv in H as (l1 & s1 & Hc & H).
    eapply IH; [|exact Hz|exact H]. eapply callback_keeps; eassumption.
Qed.

Lemma RevenueView_keeps UTC today s f (s' : store) :
  Revenue.RevenueView UTC today s = Some (f, s') -> keeps s s'.
Proof.
  intros H. unfold Revenue.RevenueView in H.
  apply bind_inv in H as (m & s1 & Hm & H).
  apply bind_inv in H as (zs & s2 & Hz & H). apply get_inv in Hz as ->.
  apply bind_inv in H as (ts & s3 & Ht & H). apply get_inv in Ht as ->.
  injection H as _ <-. clear zs ts f.
  unfold Revenue.useMemo in Hm.
  apply bind_inv in Hm as (z & sa & Ha & Hm).
  apply (alloc_keeps s s _ _ _ (keeps_refl s)) in Ha as [Ka Hz].
  apply bind_inv in Hm as (l & sb & Hl & Hm).
  unfold forEach in Hl. apply bind_inv in Hl as (xs & sb' & Hg & Hl).
  apply get_inv in Hg as ->.
  pose proof (forEach_keeps _ _ _ _ _ _ _ _ _ Ka Hz Hl) as Kb.
  apply bind_inv in Hm as (c & sc & Hc & Hm).
  apply (fresh_array_keeps (fun xs => xs) s _ _ _ _ Kb) in Hc as [Kc Hcn].
  apply bind_inv in Hm as (c' & sd & Hs & Hm).
  apply (sort_keeps s _ _ _ _ _ Kc Hcn) in Hs as [Kd ->].
  apply bind_inv in Hm as (t & se & Ht & Hm).
  apply (fresh_array_keeps (JS.slice0 10) s _ _ _ _ Kd) in Ht as [Ke _].
  now injection Hm as _ <-.
Qed.

Lemma WinBackView_keeps s rows (s' : store) :
  WinBack.WinBackView s = Some (rows, s') -> keeps s s'.
Proof.
  intros H. unfold WinBack.WinBackView in H.
  apply bind_inv in H as (w & s1 & Hm & H).
  apply bind_inv in H as (us & s2 & Hg & H). apply get_inv in Hg as ->.
  injection H as _ <-.
  unfold WinBack.useMemo in Hm.
  apply bind_inv in Hm as (r & sa & Hf & Hm).
  apply (fresh_array_keeps (List.filter WinBack.isCandidate) s _ _ _ _
           (keeps_refl s)) in Hf as [Ka Hr].
  now apply (sort_keeps s _ _ _ _ _ Ka Hr) in Hm as [Kb _].
Qed.

Lemma ParetoChart_keeps s es (s' : store) :
  Pareto.ParetoChart s = Some (es, s') -> keeps s s'.
Proof.
  intros H. unfold Pareto.ParetoChart in H.
  apply bind_inv in H as (c & sa & Hc & H).
  apply (fresh_array_keeps (fun xs => xs) s _ _ _ _ (keeps_refl s)) in Hc
    as [Ka Hcn].
  apply bind_inv in H as (c' & sb & Hs & H).
  apply (sort_keeps s _ _ _ _ _ Ka Hcn) in Hs as [Kb ->].
  apply bind_inv in H as (f & sc & Hf & H).
  apply (fresh_array_keeps (List.filter _) s _ _ _ _ Kb) in Hf as [Kc _].
  apply bind_inv in H as (us & sd & Hg & H). apply get_inv in Hg as ->.
  apply bind_inv in H as (t & se & Ht & H).
  apply (fresh_array_keeps (JS.slice0 30) s _ _ _ _ Kc) in Ht as [Kd _].
  apply bind_inv in H as (ts & sf & Hg & H). apply get_inv in Hg as ->.
  now injection H as _ <-.
Qed.

Lemma keeps_trans (s s1 s2 : store) : keeps s s1 -> keeps s1 s2 -> keeps s s2.
Proof. intros H1 H2 r xs H. now apply H2, H1. Qed.

Lemma renderPages_keeps UTC today s rep (s' : store) :
  renderPages UTC today s = Some (rep, s') -> keeps s s'.
Proof.
  intros H. unfold renderPages in H.
  apply bind_inv in H as (f & s1 & H1 & H).
  apply bind_inv in H as (es & s2 & H2 & H).
  apply bind_inv in H as (rows & s3 & H3 & H).
  injection H as _ <-.
  apply RevenueView_keeps in H1. apply ParetoChart_keeps in H2.
  apply WinBackView_keeps in H3.
  exact (keeps_trans _ _ _ (keeps_trans _ _ _ H1 H2) H3).
Qed.

End Frame.

(** X14: a pass over the pages only ever writes to arrays it has created
    itself: whatever store it starts from, every array of that store,
    [data] or not, is still there afterwards with the same contents. *)
Theorem pages_keep_every_array (UTC : Z -> Z) (today : Z) (s : store)
    (d : list User) :
  s !! data = Some d ->
  exists rep s',
    renderPages UTC today s = Some (rep, s')
    /\ forall r xs, s !! r = Some xs -> s' !! r = Some xs.
Proof.
  intros Hd. destruct (renderPages_run UTC today s d Hd) as (s' & Hrun & _).
  exists (Closed.report UTC today d), s'. split; [exact Hrun|].
  exact (renderPages_keeps _ _ _ _ _ Hrun).
Qed.

Lemma pages_keep_every_array_witness :
  twoArrays !! data = Some [ann; bo]
  /\ exists rep s',
       renderPages utc nov2026 twoArrays = Some (rep, s')
       /\ s' !! 7%nat = Some [cy].
Proof.
  assert (H : twoArrays !! data = Some [ann; bo]) by reflexivity.
  split; [exact H|].
  destruct (pages_keep_every_array utc nov2026 twoArrays [ann; bo] H)
    as (rep & s' & Hrun & Hkeep).
  exists rep, s'. split; [exact Hrun|]. apply Hkeep. reflexivity.
Defined.

(** ** Ties *)

Section Ties.

Local Open Scope Q_scope.

Variable q : Q.

Lemma insert_ties x l :
  List.filter (fun u => Qeq_bool (TotalPayments u) q) (JS.insert byRevenueDesc x l)
  = List.filter (fun u => Qeq_bool (TotalPayments u) q) (x :: l).
Proof.
  induction l as [|y l IH]; [reflexivity|].
  cbn [JS.insert]. unfold byRevenueDesc at 1.
  destruct (Qle_bool (TotalPayments y - TotalPayments x) 0) eqn:E;
    [reflexivity|].
  assert (Hlt : TotalPayments x < TotalPayments y).
  { apply Qnot_le_lt. intros H.
    assert (H' : TotalPayments y - TotalPayments x <= 0) by lra.
    apply Qle_bool_iff in H'. congruence. }
  cbn [List.filter] in *. rewrite IH.
  destruct (Qeq_bool (TotalPayments x) q) eqn:Ex;
    destruct (Qeq_bool (TotalPayments y) q) eqn:Ey; try reflexivity.
  apply Qeq_bool_iff in Ex, Ey. rewrite Ex, Ey in Hlt.
  now apply Qlt_irrefl in Hlt.
Qed.

Lemma sort_ties l :
  List.filter (fun u => Qeq_bool (TotalPayments u) q) (JS.sort byRevenueDesc l)
  = List.filter (fun u => Qeq_bool (TotalPayments u) q) l.
Proof.
  induction l as [|x l IH]; [reflexivity|].
  cbn [JS.sort]. rewrite insert_ties. cbn [List.filter]. now rewrite IH.
Qed.

End Ties.

(** X15: in the win-back list, candidates with the same [TotalPayments]
    keep the order they have in [data]. *)
Theorem winback_ties_keep_data_order (d : list User) (q : Q) :
  exists rows s',
    WinBack.WinBackView (initial d) = Some (rows, s')
    /\ List.filter (fun u => Qeq_bool (TotalPayments u) q) (map WinBack.user rows)
       = List.filter (fun u => Qeq_bool (TotalPayments u) q)
           (List.filter WinBack.isCandidate d).
Proof.
  destruct (WinBackView_run (initial d) d (initial_data d)) as (s' & Hrun & _).
  exists (Closed.rows d), s'. split; [exact Hrun|].
  rewrite rows_users. apply sort_ties.
Qed.
